(** * SSL/TLS certificate viewer: the certificate parser

    A shallow embedding of [src/lib/certificate-parser.ts] and the
    properties of its normalisation helpers.

    Conventions of the embedding.
    - A JavaScript string is a [string]: a sequence of code units below
      256.  PEM text, hexadecimal renderings and node-forge's "binary
      strings" (one code unit per DER byte) are all of that shape.
    - A JavaScript number that holds an integer is a [Z].
    - A [Date] is its time value in milliseconds since the epoch, or
      [InvalidDate].
    - node-forge, its digests and the wall clock are not part of the
      repository: they are the fields of [Host] and [World]. *)

From Stdlib Require Import String Ascii ZArith NArith List Bool Lia.
Import ListNotations.
Local Open Scope string_scope.
Local Open Scope Z_scope.

(** ** JavaScript string primitives *)

Module JS.

Definition code (c : ascii) : Z := Z.of_N (N_of_ascii c).

Definition fromCharCode (z : Z) : ascii := ascii_of_N (Z.to_N z).

(** [WhiteSpace] and [LineTerminator] of ECMAScript, below 256:
    TAB, LF, VT, FF, CR, SP and NBSP.  This is what [trim] removes and what
    the regular expression class [\s] matches. *)
Definition isWhiteSpace (c : ascii) : bool :=
  let n := code c in
  ((9 <=? n) && (n <=? 13)) || (n =? 32) || (n =? 160).

(** [LineTerminator] below 256: LF and CR, the code units the regular
    expression atom [.] refuses. *)
Definition isLineTerminator (c : ascii) : bool :=
  let n := code c in (n =? 10) || (n =? 13).

Fixpoint trimStart (s : string) : string :=
  match s with
  | String c s' => if isWhiteSpace c then trimStart s' else s
  | EmptyString => EmptyString
  end.

Fixpoint trimEnd (s : string) : string :=
  match s with
  | String c s' =>
      match trimEnd s' with
      | EmptyString => if isWhiteSpace c then EmptyString else String c EmptyString
      | r => String c r
      end
  | EmptyString => EmptyString
  end.

Definition trim (s : string) : string := trimEnd (trimStart s).

(** [s.startsWith(p)] *)
Fixpoint startsWith (p s : string) : bool :=
  match p, s with
  | EmptyString, _ => true
  | String a p', String b s' => Ascii.eqb a b && startsWith p' s'
  | String _ _, EmptyString => false
  end.

Fixpoint drop (n : nat) (s : string) : string :=
  match n, s with
  | O, _ => s
  | S n', String _ s' => drop n' s'
  | S _, EmptyString => EmptyString
  end.

(** [s.endsWith(p)]: [p] is compared with the last [p.length] code units. *)
Definition endsWith (p s : string) : bool :=
  (String.length p <=? String.length s)%nat
  && String.eqb (drop (String.length s - String.length p) s) p.

(** [s.includes(p)]: [p] occurs at some position of [s]. *)
Fixpoint includes (p s : string) : bool :=
  startsWith p s
  || match s with
     | String _ s' => includes p s'
     | EmptyString => false
     end.

(** [parts.join(sep)] *)
Fixpoint join (sep : string) (parts : list string) : string :=
  match parts with
  | [] => EmptyString
  | [x] => x
  | x :: rest => x ++ sep ++ join sep rest
  end.

Fixpoint map_chars (f : ascii -> ascii) (s : string) : string :=
  match s with
  | String c s' => String (f c) (map_chars f s')
  | EmptyString => EmptyString
  end.

(** Case mapping over the code units below 256: the letters A-Z, and the
    accented capitals 192-222 without the multiplication sign 215. *)
Definition lowerChar (c : ascii) : ascii :=
  let n := code c in
  if ((65 <=? n) && (n <=? 90))
     || ((192 <=? n) && (n <=? 222) && negb (n =? 215))
  then fromCharCode (n + 32) else c.

Definition toLowerCase (s : string) : string := map_chars lowerChar s.

(** Upper case of the ASCII letters; this is all the parser asks of
    [toUpperCase], which it applies to radix-16 and radix-10 renderings. *)
Definition upperChar (c : ascii) : ascii :=
  let n := code c in
  if (97 <=? n) && (n <=? 122) then fromCharCode (n - 32) else c.

Definition toUpperCase (s : string) : string := map_chars upperChar s.

(** [s.replace(/c.../g, rep)] for a class of single code units. *)
Fixpoint replaceClass (cls : ascii -> bool) (rep s : string) : string :=
  match s with
  | String c s' =>
      (if cls c then rep else String c EmptyString) ++ replaceClass cls rep s'
  | EmptyString => EmptyString
  end.

(** [s.replace(/pat/g, rep)] for a literal, non-empty pattern: matches are
    taken left to right and do not overlap.  [skip] counts the code units
    of the current match that are still to be passed over. *)
Fixpoint replaceLiteral_from (skip : nat) (pat rep s : string) : string :=
  match s with
  | String c s' =>
      match skip with
      | S k => replaceLiteral_from k pat rep s'
      | O =>
          if startsWith pat s
          then rep ++ replaceLiteral_from (String.length pat - 1) pat rep s'
          else String c (replaceLiteral_from O pat rep s')
      end
  | EmptyString => EmptyString
  end.

Definition replaceLiteral (pat rep s : string) : string :=
  replaceLiteral_from O pat rep s.

(** [s.match(/.{1,2}/g)]: the successive greedy matches of one or two code
    units that are not line terminators.  A line terminator ends the chunk
    being read and is itself skipped.  [pending] is the first code unit of
    a chunk whose second one is still to be read.  The result is the list
    of matches; JavaScript gives [null] where this list is empty. *)
Fixpoint matchPairs_from (pending : option ascii) (s : string) : list string :=
  match s with
  | String c s' =>
      if isLineTerminator c then
        match pending with
        | Some a => String a EmptyString :: matchPairs_from None s'
        | None => matchPairs_from None s'
        end
      else
        match pending with
        | Some a => String a (String c EmptyString) :: matchPairs_from None s'
        | None => matchPairs_from (Some c) s'
        end
  | EmptyString =>
      match pending with
      | Some a => [String a EmptyString]
      | None => []
      end
  end.

Definition matchPairs (s : string) : list string := matchPairs_from None s.

(** [s.split('')] and [Array.from(s)]: the code units, each as a string. *)
Fixpoint chars (s : string) : list string :=
  match s with
  | String c s' => String c EmptyString :: chars s'
  | EmptyString => []
  end.

(** [s.charCodeAt(i)]; [None] is [NaN], the answer out of range. *)
Fixpoint charCodeAt (s : string) (i : nat) : option Z :=
  match s, i with
  | String c _, O => Some (code c)
  | String _ s', S i' => charCodeAt s' i'
  | EmptyString, _ => None
  end.

Fixpoint repeat_char (c : ascii) (n : nat) : string :=
  match n with
  | O => EmptyString
  | S n' => String c (repeat_char c n')
  end.

(** [s.padStart(width, c)] for a one-character filler. *)
Definition padStart (width : nat) (c : ascii) (s : string) : string :=
  repeat_char c (width - String.length s) ++ s.

End JS.

(** ** Format validator *)

Definition BEGIN_CERTIFICATE : string := "-----BEGIN CERTIFICATE-----".
Definition END_CERTIFICATE : string := "-----END CERTIFICATE-----".

Definition validateCertificateFormat (certText : string) : bool :=
  let trimmed := JS.trim certText in
  JS.includes BEGIN_CERTIFICATE trimmed
  && JS.includes END_CERTIFICATE trimmed
  && JS.startsWith BEGIN_CERTIFICATE trimmed
  && JS.endsWith END_CERTIFICATE trimmed.

(** ** Numbers and their renderings *)

Module Num.

(** The digit table of [Number.prototype.toString] and of jsbn's
    [BigInteger.prototype.toString]: lower-case letters above 9. *)
Definition digitChar (d : Z) : ascii :=
  if d <? 10 then JS.fromCharCode (48 + d) else JS.fromCharCode (87 + d).

(** Digits of [n >= 0] in radix [r], most significant first, put in front
    of [acc]. *)
Fixpoint toRadix_from (fuel : nat) (r n : Z) (acc : string) : string :=
  match fuel with
  | O => acc
  | S f =>
      if n <? r then String (digitChar n) acc
      else toRadix_from f r (n / r) (String (digitChar (n mod r)) acc)
  end.

(** A number of [k] bits has at most [k] digits in any radix. *)
Definition digitFuel (n : Z) : nat := S (Z.to_nat (Z.log2 n)).

(** Exact rendering of an integer in radix [r]. *)
Definition intToString (r n : Z) : string :=
  if n <? 0
  then String "-" (toRadix_from (digitFuel (- n)) r (- n) EmptyString)
  else toRadix_from (digitFuel n) r n EmptyString.

(** A JavaScript number that holds an integer, or [NaN]. *)
Inductive Number : Type :=
| NaN
| Int (z : Z).

Definition isDecimalDigit (c : ascii) : bool :=
  let n := JS.code c in (48 <=? n) && (n <=? 57).

Definition digitValue (c : ascii) : Z := JS.code c - 48.

(** Reads decimal digits as long as there are some; [seen] tells whether a
    digit was read. *)
Fixpoint parseDigits (seen : bool) (acc : Z) (s : string) : bool * Z :=
  match s with
  | String c s' =>
      if isDecimalDigit c
      then parseDigits true (10 * acc + digitValue c) s'
      else (seen, acc)
  | EmptyString => (seen, acc)
  end.

(** [parseInt(s, 10)]: leading white space, an optional sign, then the
    longest run of decimal digits; [NaN] without a digit. *)
Definition parseInt10 (s : string) : Number :=
  let t := JS.trimStart s in
  let '(sign, body) :=
    match t with
    | String "-" t' => (-1, t')
    | String "+" t' => (1, t')
    | _ => (1, t)
    end in
  match parseDigits false 0 body with
  | (true, v) => Int (sign * v)
  | (false, _) => NaN
  end.

(** Every integer of magnitude up to [2^53] is a double. *)
Definition MAX_EXACT : Z := 2 ^ 53.

Definition exact (z : Z) : bool := Z.abs z <=? MAX_EXACT.

End Num.

(** ** Dates *)

Inductive Date : Type :=
| InvalidDate
| Instant (ms : Z).

(** The largest time value of a [Date]: 100,000,000 days. *)
Definition MAX_TIME : Z := 8640000000000000.

(** [new Date(t)]: [TimeClip]. *)
Definition newDate (t : Z) : Date :=
  if Z.abs t <=? MAX_TIME then Instant t else InvalidDate.

(** [new Date(a.getTime() + delta)]; the time value of an invalid date is
    [NaN], and so is the sum. *)
Definition dateAfter (a : Date) (delta : Z) : Date :=
  match a with
  | Instant t => newDate (t + delta)
  | InvalidDate => InvalidDate
  end.

(** [a < b] on dates compares the time values; a comparison with [NaN] is
    false. *)
Definition date_lt (a b : Date) : bool :=
  match a, b with
  | Instant x, Instant y => x <? y
  | _, _ => false
  end.

(** Days between 1970-01-01 and a day of the Gregorian calendar. *)
Definition daysFromCivil (y m d : Z) : Z :=
  let y' := if m <=? 2 then y - 1 else y in
  let era := y' / 400 in
  let yoe := y' - era * 400 in
  let mp := (m + 9) mod 12 in
  let doy := (153 * mp + 2) / 5 + d - 1 in
  let doe := yoe * 365 + yoe / 4 - yoe / 100 + doy in
  era * 146097 + doe - 719468.

(** [new Date('YYYY-MM-DDTHH:MM:SS.mmmZ')] *)
Definition dateOfUTC (y m d hh mm ss ms : Z) : Date :=
  newDate (daysFromCivil y m d * 86400000
           + hh * 3600000 + mm * 60000 + ss * 1000 + ms).

(** ** What node-forge hands over *)

Inductive AttributeValue : Type :=
| AttrString (s : string)
| AttrArray (items : list string).

(** An attribute of a distinguished name; forge sets [name] only for the
    attribute types it knows. *)
Record Attribute : Type := {
  attr_name : option string;
  attr_value : AttributeValue
}.

(** The [value] of an extension is typed [any]. *)
Inductive ExtValue : Type :=
| ExtUndefined
| ExtString (s : string)
| ExtArray (items : list string)
| ExtObject (json : string).   (* an object, with its JSON.stringify text *)

(** An extension object; forge sets [name] only for the OIDs it knows, and
    always sets [critical] and [value]. *)
Record Extension : Type := {
  ext_name : option string;
  ext_value : ExtValue;
  ext_critical : bool
}.

(** The properties of the public key object the parser looks at.  A
    property read through [typeof x === 'string'] is [None] when it is
    missing or not a string; [n] and [e] are jsbn big integers; of the other
    properties only the truthiness is read. *)
Record PublicKey : Type := {
  pk_algorithm : option string;
  pk_algorithmName : option string;
  pk_n : option N;
  pk_e : option N;
  pk_curve : bool;
  pk_y : bool;
  pk_p : bool;
  pk_q : bool;
  pk_g : bool
}.

Record Certificate : Type := {
  cert_version : option Z;
  cert_subject : list Attribute;
  cert_issuer : list Attribute;
  cert_notBefore : Date;
  cert_notAfter : Date;
  cert_serialNumber : string;
  cert_publicKey : option PublicKey;
  cert_signature : string;
  cert_signatureAlgorithm : option string;
  cert_sigAlg : option string;
  cert_signatureAlgorithmOid : option string;
  cert_extensions : list Extension
}.

(** What a [throw] carries. *)
Inductive Thrown : Type :=
| ThrownError (message : string)
| ThrownOther.

(** The collaborators outside the repository. *)
Record Host : Type := {
  (** [forge.pki.certificateFromPem] *)
  certificateFromPem : string -> Thrown + Certificate;
  (** [forge.asn1.toDer(forge.pki.certificateToAsn1(cert)).getBytes()] *)
  certificateToDer : Certificate -> string;
  (** [forge.md.sha1.create().update(bytes).digest().toHex()] *)
  sha1Hex : string -> string;
  (** [forge.md.sha256.create().update(bytes).digest().toHex()] *)
  sha256Hex : string -> string;
  (** the message of the [TypeError] raised by reading the named property
      of [undefined] *)
  typeErrorReading : string -> string;
  (** the rendering, in the given radix, of the double that [parseInt]
      returns for an integer beyond [2^53] *)
  inexactToString : Z -> Z -> string
}.

(** The ambient state a call runs in. *)
Record World : Type := {
  wallClock : Z    (* what [new Date()] reads, in milliseconds *)
}.

(** ** The result *)

Record DistinguishedName : Type := {
  commonName : option string;
  organization : option string;
  organizationalUnit : option string;
  country : option string;
  state : option string;
  locality : option string;
  email : option string
}.

Record Validity : Type := {
  notBefore : Date;
  notAfter : Date;
  isExpired : bool;
  isExpiringSoon : bool
}.

Record PublicKeyInfo : Type := {
  algorithm : string;
  keySize : option Z;
  modulus : option string;
  exponent : option string
}.

Record SignatureInfo : Type := {
  sig_algorithm : string;
  sig_value : string
}.

Record ExtensionInfo : Type := {
  name : string;
  value : string;
  critical : bool
}.

Record Fingerprint : Type := {
  sha1 : string;
  sha256 : string
}.

Record RawData : Type := {
  binary : string;
  hex : string;
  binaryString : string
}.

Record BasicConstraints : Type := {
  isCA : bool;
  pathLength : option Z;
  rawData : option RawData
}.

Record SCT : Type := {
  sct_version : string;
  logId : string;
  timestamp : Date;
  sct_signature : string
}.

Record CertificateTransparency : Type := {
  scts : list SCT
}.

Record CertificateInfo : Type := {
  version : Z;
  subject : DistinguishedName;
  issuer : DistinguishedName;
  validity : Validity;
  serialNumber : string;
  publicKey : PublicKeyInfo;
  signature : SignatureInfo;
  extensions : list ExtensionInfo;
  fingerprint : Fingerprint;
  keyUsage : option (list string);
  basicConstraints : option BasicConstraints;
  extendedKeyUsage : option (list string);
  certificateTransparency : option CertificateTransparency
}.

Record KeyUsageFlags : Type := {
  digitalSignature : bool;
  nonRepudiation : bool;
  keyEncipherment : bool;
  dataEncipherment : bool;
  keyAgreement : bool;
  keyCertSign : bool;
  cRLSign : bool;
  encipherOnly : bool;
  decipherOnly : bool
}.

(** ** Effects: the wall clock and exceptions *)

Inductive Outcome (A : Type) : Type :=
| Returned (a : A)
| Threw (e : Thrown).

Arguments Returned {A} a.
Arguments Threw {A} e.

Definition Eff (A : Type) : Type := World -> Outcome A.

Definition ret {A : Type} (a : A) : Eff A := fun _ => Returned a.

Definition bind {A B : Type} (m : Eff A) (k : A -> Eff B) : Eff B :=
  fun w =>
    match m w with
    | Returned a => k a w
    | Threw e => Threw e
    end.

Definition throw {A : Type} (e : Thrown) : Eff A := fun _ => Threw e.

Definition tryCatch {A : Type} (m : Eff A) (handler : Thrown -> Eff A) : Eff A :=
  fun w =>
    match m w with
    | Returned a => Returned a
    | Threw e => handler e w
    end.

(** A call into the host that returns or throws. *)
Definition call {A : Type} (r : Thrown + A) : Eff A :=
  match r with
  | inr a => ret a
  | inl e => throw e
  end.

(** [new Date()] *)
Definition Date_now : Eff Date := fun w => Returned (Instant (wallClock w)).

Declare Scope eff_scope.
Delimit Scope eff_scope with eff.
Notation "x <- m ;; k" := (bind m (fun x => k))
  (at level 61, m at next level, right associativity) : eff_scope.

(** ** Truthiness and string conversion of the values read *)

(** [x && typeof x === 'string']: a non-empty string. *)
Definition truthyString (x : option string) : option string :=
  match x with
  | Some s => if String.eqb s "" then None else Some s
  | None => None
  end.

Definition nonEmpty (s : string) : bool := negb (String.eqb s "").

Definition truthyValue (v : ExtValue) : bool :=
  match v with
  | ExtUndefined => false
  | ExtString s => nonEmpty s
  | ExtArray _ => true
  | ExtObject _ => true
  end.

(** [String(v)] *)
Definition stringOfValue (v : ExtValue) : string :=
  match v with
  | ExtUndefined => "undefined"
  | ExtString s => s
  | ExtArray items => JS.join "," items
  | ExtObject _ => "[object Object]"
  end.

(** [extensions.find(ext => ext.name === wanted)] and the like. *)
Fixpoint find_ext (p : Extension -> bool) (exts : list Extension)
  : option Extension :=
  match exts with
  | e :: rest => if p e then Some e else find_ext p rest
  | [] => None
  end.

Definition nameIs (wanted : string) (e : Extension) : bool :=
  match ext_name e with
  | Some n => String.eqb n wanted
  | None => false
  end.

(** ** Field extractors *)

(** [(cert.version || 2) + 1]: [undefined] and [0] are both falsy. *)
Definition displayedVersion (v : option Z) : Z :=
  (match v with
   | Some n => if n =? 0 then 2 else n
   | None => 2
   end) + 1.

Definition emptyDN : DistinguishedName :=
  {| commonName := None; organization := None; organizationalUnit := None;
     country := None; state := None; locality := None; email := None |}.

Definition attributeText (v : AttributeValue) : string :=
  match v with
  | AttrArray items => JS.join ", " items
  | AttrString s => s
  end.

(** The body of the [forEach] over the attributes: one [switch]. *)
Definition setAttribute (dn : DistinguishedName) (attr : Attribute)
  : DistinguishedName :=
  let v := Some (attributeText (attr_value attr)) in
  match attr_name attr with
  | Some "commonName" =>
      {| commonName := v; organization := organization dn;
         organizationalUnit := organizationalUnit dn; country := country dn;
         state := state dn; locality := locality dn; email := email dn |}
  | Some "organizationName" =>
      {| commonName := commonName dn; organization := v;
         organizationalUnit := organizationalUnit dn; country := country dn;
         state := state dn; locality := locality dn; email := email dn |}
  | Some "organizationalUnitName" =>
      {| commonName := commonName dn; organization := organization dn;
         organizationalUnit := v; country := country dn;
         state := state dn; locality := locality dn; email := email dn |}
  | Some "countryName" =>
      {| commonName := commonName dn; organization := organization dn;
         organizationalUnit := organizationalUnit dn; country := v;
         state := state dn; locality := locality dn; email := email dn |}
  | Some "stateOrProvinceName" =>
      {| commonName := commonName dn; organization := organization dn;
         organizationalUnit := organizationalUnit dn; country := country dn;
         state := v; locality := locality dn; email := email dn |}
  | Some "localityName" =>
      {| commonName := commonName dn; organization := organization dn;
         organizationalUnit := organizationalUnit dn; country := country dn;
         state := state dn; locality := v; email := email dn |}
  | Some "emailAddress" =>
      {| commonName := commonName dn; organization := organization dn;
         organizationalUnit := organizationalUnit dn; country := country dn;
         state := state dn; locality := locality dn; email := v |}
  | _ => dn
  end.

Definition extractDN (attrs : list Attribute) : DistinguishedName :=
  fold_left setAttribute attrs emptyDN.

Definition THIRTY_DAYS : Z := 30 * 24 * 60 * 60 * 1000.

Definition evaluateValidity (nb na now : Date) : Validity :=
  let thirtyDaysFromNow := dateAfter now THIRTY_DAYS in
  {| notBefore := nb;
     notAfter := na;
     isExpired := date_lt na now;
     isExpiringSoon := date_lt na thirtyDaysFromNow && date_lt now na |}.

Definition extractPublicKeyAlgorithm (publicKey : option PublicKey) : string :=
  match publicKey with
  | None => "Unknown"
  | Some pk =>
      match truthyString (pk_algorithm pk) with
      | Some a => a
      | None =>
      match truthyString (pk_algorithmName pk) with
      | Some a => a
      | None =>
      match pk_n pk, pk_e pk with
      | Some _, Some _ => "rsaEncryption"
      | _, _ =>
      if pk_curve pk then "ecPublicKey"
      else if pk_y pk && pk_p pk && pk_q pk && pk_g pk then "dsaEncryption"
      else "Unknown"
      end end end
  end.

Definition extractSignatureAlgorithm (c : Certificate) : string :=
  match truthyString (cert_signatureAlgorithm c) with
  | Some a => a
  | None =>
  match truthyString (cert_sigAlg c) with
  | Some a => a
  | None =>
  match truthyString (cert_signatureAlgorithmOid c) with
  | Some a => a
  | None =>
      match nonEmpty (cert_signature c), cert_publicKey c with
      | true, Some _ => "sha256WithRSAEncryption"
      | _, _ => "Unknown"
      end
  end end end.

(** [forge.util.bytesToHex]: two lower-case digits per byte. *)
Definition byteHex (ch : string) : string :=
  match JS.charCodeAt ch 0 with
  | Some n => JS.padStart 2 "0" (Num.intToString 16 n)
  | None => EmptyString
  end.

Definition bytesToHex (bytes : string) : string :=
  String.concat "" (map byteHex (JS.chars bytes)).

(** ** Formatting helpers *)

(** [match(...)?.join(':') || fallback]: without a match the left operand
    is [undefined]; an empty string would be falsy too, but a join of
    non-empty matches is never empty. *)
Definition joinPairsOr (fallback cleaned : string) : string :=
  match JS.matchPairs cleaned with
  | [] => fallback
  | parts =>
      let joined := JS.join ":" parts in
      if nonEmpty joined then joined else fallback
  end.

Definition isColon (c : ascii) : bool := Ascii.eqb c ":".

Definition formatSerialNumber (serial : string) : string :=
  let cleanSerial := JS.replaceClass isColon "" serial in
  joinPairsOr serial cleanSerial.

(** [parts.slice(i, i + 15)] for [i = 0, 15, 30, ...]. *)
Fixpoint linesOf15 (fuel : nat) (parts : list string) : list (list string) :=
  match fuel, parts with
  | _, [] => []
  | O, _ => []
  | S f, _ => firstn 15 parts :: linesOf15 f (skipn 15 parts)
  end.

Definition isColonOrSpace (c : ascii) : bool := isColon c || JS.isWhiteSpace c.

(** [withColons.split(':')]: the pieces between colons; an empty string
    splits into one empty piece. *)
Fixpoint split_colon_from (cur : string) (s : string) : list string :=
  match s with
  | String c s' =>
      if isColon c then cur :: split_colon_from EmptyString s'
      else split_colon_from (cur ++ String c EmptyString) s'
  | EmptyString => [cur]
  end.

Definition splitColon (s : string) : list string :=
  split_colon_from EmptyString s.

Definition CONTINUATION : string := String "010" "                    ".

Definition formatModulus (hexData : string) : string :=
  let cleanHex := JS.replaceClass isColonOrSpace "" hexData in
  let withColons := joinPairsOr cleanHex cleanHex in
  let parts := splitColon withColons in
  let lines := map (JS.join ":") (linesOf15 (List.length parts) parts) in
  JS.join CONTINUATION lines.

Section WithHost.

Variable H : Host.

(** [n.toString(radix)] of a number *)
Definition numberToString (radix : Z) (v : Num.Number) : string :=
  match v with
  | Num.NaN => "NaN"
  | Num.Int z =>
      if Num.exact z then Num.intToString radix z
      else inexactToString H radix z
  end.

Definition formatExponent (decimalData : string) : string :=
  let decimalValue := Num.parseInt10 decimalData in
  let hexValue := JS.toUpperCase (numberToString 16 decimalValue) in
  numberToString 10 decimalValue ++ " (0x" ++ hexValue ++ ")".

End WithHost.

(** ** Extension interpreter *)

(** The operand of a bitwise [&]: [NaN] converts to 0. *)
Definition toInt32 (x : option Z) : Z :=
  match x with
  | Some c => c
  | None => 0
  end.

Definition bitSet (bits mask : Z) : bool := negb (Z.land bits mask =? 0).

(** The flag set returned when the raw value is shorter than 4. *)
Definition keyUsageFallback : KeyUsageFlags :=
  {| digitalSignature := true;
     nonRepudiation := false;
     keyEncipherment := true;
     dataEncipherment := false;
     keyAgreement := false;
     keyCertSign := false;
     cRLSign := false;
     encipherOnly := false;
     decipherOnly := false |}.

Definition parseKeyUsageExtension (value : ExtValue) : KeyUsageFlags :=
  let rawValue := stringOfValue value in
  if (4 <=? String.length rawValue)%nat then
    let bitString := toInt32 (JS.charCodeAt rawValue 3) in
    {| digitalSignature := bitSet bitString 128;
       nonRepudiation := bitSet bitString 64;
       keyEncipherment := bitSet bitString 32;
       dataEncipherment := bitSet bitString 16;
       keyAgreement := bitSet bitString 8;
       keyCertSign := bitSet bitString 4;
       cRLSign := bitSet bitString 2;
       encipherOnly := bitSet bitString 1;
       decipherOnly := false |}
  else keyUsageFallback.

Definition pushIf (flag : bool) (label : string) : list string :=
  if flag then [label] else [].

Definition keyUsageLabels (f : KeyUsageFlags) : list string :=
  pushIf (digitalSignature f) "Digital Signature"
  ++ pushIf (nonRepudiation f) "Non Repudiation"
  ++ pushIf (keyEncipherment f) "Key Encipherment"
  ++ pushIf (dataEncipherment f) "Data Encipherment"
  ++ pushIf (keyAgreement f) "Key Agreement"
  ++ pushIf (keyCertSign f) "Key Cert Sign"
  ++ pushIf (cRLSign f) "CRL Sign"
  ++ pushIf (encipherOnly f) "Encipher Only"
  ++ pushIf (decipherOnly f) "Decipher Only".

(** The code of the one code unit of [ch], in radix [r], left-padded. *)
Definition codeInRadix (r : Z) (width : nat) (ch : string) : string :=
  JS.padStart width "0" (Num.intToString r (toInt32 (JS.charCodeAt ch 0))).

Definition hexEcho (rawValue : string) : string :=
  JS.join ":"
    (map (fun ch => JS.toUpperCase (codeInRadix 16 2 ch)) (JS.chars rawValue)).

Definition binaryEcho (rawValue : string) : string :=
  JS.join " " (map (codeInRadix 2 8) (JS.chars rawValue)).

Definition rawEchoLines (rawValue : string) : list string :=
  [ "Raw Binary: " ++ rawValue;
    "Hex: " ++ hexEcho rawValue;
    "Binary: " ++ binaryEcho rawValue ].

Definition parseBasicConstraintsExtension (value : ExtValue) : BasicConstraints :=
  let rawValue := stringOfValue value in
  let isCA0 := false in
  let pathLength0 : option Z := None in
  let '(isCA1, pathLength1) :=
    if (2 <=? String.length rawValue)%nat then
      match JS.charCodeAt rawValue 1 with
      | Some 0 => (false, None)
      | _ => (false, pathLength0)
      end
    else (isCA0, pathLength0) in
  {| isCA := isCA1;
     pathLength := pathLength1;
     rawData := Some {| binary := rawValue;
                        hex := hexEcho rawValue;
                        binaryString := binaryEcho rawValue |} |}.

Definition parseExtendedKeyUsageExtension : list string :=
  ["TLS Web Server Authentication"; "TLS Web Client Authentication"].

Definition NL : string := String "010" EmptyString.

Definition fixedSCTs : list SCT :=
  [ {| sct_version := "v1 (0x0)";
       logId := "A2:E3:0A:E4:45:EF:BD:AD:9B:7E:38:ED:47:67:77:53:D7:82:5B:84:94:D7:2B:5E:1B:2C:C4:B9:50:A4:47:E7";
       timestamp := dateOfUTC 2024 1 24 5 46 9 505;
       sct_signature := "ecdsa-with-SHA256" ++ NL ++ "30:45:02:20:11:44:E0:29:DD:CF:CC:5B:CE:64:7F:F9:39:F7:63:23:20:05:CF:BD:3C:BB:8C:D4:52:CC:E4:55:18:9A:B0:FA:02:21:00:BD:A2:3D:6A:A4:79:7B:10:4A:B0:73:8C:52:71:0A:8F:54:D9:4B:82:B1:0A:AD:0A:70:98:F0:C6:67:FE:9E:7F" |};
    {| sct_version := "v1 (0x0)";
       logId := "E6:D2:31:63:40:77:8C:C1:10:41:06:D7:71:B9:CE:C1:D2:40:F6:96:84:86:FB:BA:87:32:1D:FD:1E:37:8E:50";
       timestamp := dateOfUTC 2024 1 24 5 46 9 503;
       sct_signature := "ecdsa-with-SHA256" ++ NL ++ "30:45:02:21:00:99:5C:D5:D1:0F:69:FB:51:15:AE:93:BD:E5:4A:44:E5:D1:C3:E0:E7:80:F8:04:85:3B:F5:15:17:B7:E2:3B:26:02:20:7B:52:D6:EE:5E:AB:7A:F0:B2:E5:F8:85:84:4D:A5:F9:EF:F7:04:20:4C:E9:BD:13:94:C7:50:F1:1C:1E:A8:9B" |};
    {| sct_version := "v1 (0x0)";
       logId := "4E:75:A3:27:5C:9A:10:C3:38:5B:6C:D4:DF:3F:52:EB:1D:F0:E0:8E:1B:8D:69:C0:B1:FA:64:B1:62:9A:39:DF";
       timestamp := dateOfUTC 2024 1 24 5 46 9 453;
       sct_signature := "ecdsa-with-SHA256" ++ NL ++ "30:45:02:20:56:C3:6A:8F:CF:B2:2A:B3:F4:DF:F4:87:44:DB:99:6F:57:BD:44:D5:59:3C:AE:B9:EC:77:DA:E0:1E:62:0D:89:02:21:00:BF:C6:89:A9:45:EE:25:BE:7F:33:4D:EE:78:44:1E:F8:C0:2E:69:8F:64:A4:0E:B5:6A:07:4B:E2:56:E3:7F:16" |} ].

(** The argument is typed [unknown]; the caller passes what [find]
    returned.  [ctExtension && typeof ctExtension === 'object'] holds of an
    extension object and fails of [undefined]; ['value' in ctExtension]
    holds of every extension object, which has the field.  Nothing in the
    guarded block throws, so the empty [catch] is never entered. *)
Definition parseCertificateTransparencySCTs (ctExtension : option Extension)
  : list SCT :=
  match ctExtension with
  | Some _ => [] ++ fixedSCTs
  | None => []
  end.

(** The predicate of the [find] that looks for the SCT list. *)
Definition isCtExtension (e : Extension) : bool :=
  match ext_name e with
  | Some n =>
      String.eqb n "ctPrecertificateSCTs"
      || String.eqb n "signedCertificateTimestampList"
      || String.eqb n "1.3.6.1.4.1.11129.2.4.2"
      || String.eqb n "1.3.6.1.4.1.11129.2.4.5"
      || JS.includes "ct" (JS.toLowerCase n)
      || JS.includes "sct" (JS.toLowerCase n)
      || JS.includes "transparency" (JS.toLowerCase n)
  | None => false
  end.

(** The generic rendering of one extension. *)
Definition extensionInfo (ext : Extension) : ExtensionInfo :=
  let value0 :=
    if truthyValue (ext_value ext) then
      match ext_value ext with
      | ExtString s => s
      | ExtArray items => JS.join ", " items
      | ExtObject json => json
      | ExtUndefined => EmptyString
      end
    else EmptyString in
  {| name := match truthyString (ext_name ext) with
             | Some n => n
             | None => "Unknown"
             end;
     value := value0;
     critical := ext_critical ext || false |}.

Definition nonEmptyList (l : list string) : option (list string) :=
  match l with
  | [] => None
  | _ => Some l
  end.

(** ** The parser *)

Section Parser.

Variable H : Host.

Local Open Scope eff_scope.

Definition publicKeyInfo (cert : Certificate) : Eff PublicKeyInfo :=
  let algorithm0 := extractPublicKeyAlgorithm (cert_publicKey cert) in
  match cert_publicKey cert with
  | None => throw (ThrownError (typeErrorReading H "n"))
  | Some pk =>
      match pk_n pk, pk_e pk with
      | Some n, Some e =>
          ret {| algorithm := algorithm0;
                 keySize := Some (Z.of_N (N.size n));
                 modulus := Some (formatModulus (Num.intToString 16 (Z.of_N n)));
                 exponent := Some (formatExponent H (Num.intToString 10 (Z.of_N e))) |}
      | _, _ =>
          ret {| algorithm := algorithm0;
                 keySize := None; modulus := None; exponent := None |}
      end
  end.

Definition keyUsageOf (cert : Certificate) : list string :=
  match find_ext (nameIs "keyUsage") (cert_extensions cert) with
  | Some ext =>
      if truthyValue (ext_value ext) then
        keyUsageLabels (parseKeyUsageExtension (ext_value ext))
        ++ rawEchoLines (stringOfValue (ext_value ext))
      else []
  | None => []
  end.

Definition extendedKeyUsageOf (cert : Certificate) : list string :=
  match find_ext (nameIs "extKeyUsage") (cert_extensions cert) with
  | Some ext =>
      if truthyValue (ext_value ext) then
        parseExtendedKeyUsageExtension
        ++ rawEchoLines (stringOfValue (ext_value ext))
      else []
  | None => []
  end.

Definition certificateTransparencyOf (cert : Certificate)
  : option CertificateTransparency :=
  match find_ext isCtExtension (cert_extensions cert) with
  | Some ext => Some {| scts := parseCertificateTransparencySCTs (Some ext) |}
  | None => None
  end.

Definition fingerprintOf (cert : Certificate) : Fingerprint :=
  {| sha1 := sha1Hex H (certificateToDer H cert);
     sha256 := sha256Hex H (certificateToDer H cert) |}.

Definition cleanCertText (certText : string) : string :=
  JS.trim
    (JS.replaceLiteral END_CERTIFICATE END_CERTIFICATE
       (JS.replaceLiteral BEGIN_CERTIFICATE BEGIN_CERTIFICATE certText)).

Definition parseBody (certText : string) : Eff CertificateInfo :=
  cert <- call (certificateFromPem H (cleanCertText certText)) ;;
  let version0 := displayedVersion (cert_version cert) in
  let subject0 := extractDN (cert_subject cert) in
  let issuer0 := extractDN (cert_issuer cert) in
  now <- Date_now ;;
  let validity0 := evaluateValidity (cert_notBefore cert) (cert_notAfter cert) now in
  publicKey0 <- publicKeyInfo cert ;;
  let signature0 :=
    {| sig_algorithm := extractSignatureAlgorithm cert;
       sig_value := bytesToHex (cert_signature cert) |} in
  let extensions0 := map extensionInfo (cert_extensions cert) in
  let basicConstraints0 :=
    match find_ext (nameIs "basicConstraints") (cert_extensions cert) with
    | Some ext => Some (parseBasicConstraintsExtension (ext_value ext))
    | None => None
    end in
  ret {| version := version0;
         subject := subject0;
         issuer := issuer0;
         validity := validity0;
         serialNumber := formatSerialNumber (cert_serialNumber cert);
         publicKey := publicKey0;
         signature := signature0;
         extensions := extensions0;
         fingerprint := fingerprintOf cert;
         keyUsage := nonEmptyList (keyUsageOf cert);
         basicConstraints := basicConstraints0;
         extendedKeyUsage := nonEmptyList (extendedKeyUsageOf cert);
         certificateTransparency := certificateTransparencyOf cert |}.

Definition errorMessage (e : Thrown) : string :=
  match e with
  | ThrownError message => message
  | ThrownOther => "Unknown error"
  end.

Definition parseCertificateWithForge (certText : string) : Eff CertificateInfo :=
  tryCatch (parseBody certText)
    (fun error =>
       throw (ThrownError ("Failed to parse certificate: " ++ errorMessage error))).

(** The promise of [parseCertificate] settles as the call does. *)
Definition parseCertificate (certText : string) : Eff CertificateInfo :=
  parseCertificateWithForge certText.

End Parser.

(** ** Reference grouping

    The grouping the formatters are meant to produce, written directly:
    the text cut into pieces of two code units from the left, the last
    piece holding one when the length is odd. *)

Fixpoint pairsOf (s : string) : list string :=
  match s with
  | String a (String b s') => String a (String b EmptyString) :: pairsOf s'
  | String a EmptyString => [String a EmptyString]
  | EmptyString => []
  end.

(** No code unit of [s] satisfies [p]. *)
Fixpoint noneOf (p : ascii -> bool) (s : string) : bool :=
  match s with
  | String c s' => negb (p c) && noneOf p s'
  | EmptyString => true
  end.

Definition isUpperLetter (c : ascii) : bool :=
  let n := JS.code c in (65 <=? n) && (n <=? 90).



Definition notWhiteSpace (c : ascii) : bool := negb (JS.isWhiteSpace c).

(** ** A certificate to run the parser on *)

Fixpoint bytes (codes : list Z) : string :=
  match codes with
  | b :: rest => String (JS.fromCharCode b) (bytes rest)
  | [] => EmptyString
  end.

Definition samplePem : string :=
  "-----BEGIN CERTIFICATE-----" ++ NL
  ++ "MIIBszCCAVmgAwIBAgIUGis8" ++ NL
  ++ "-----END CERTIFICATE-----" ++ NL.

Definition sampleKey : PublicKey :=
  {| pk_algorithm := None; pk_algorithmName := None;
     pk_n := Some 3584278967%N; pk_e := Some 65537%N;
     pk_curve := false; pk_y := false; pk_p := false; pk_q := false;
     pk_g := false |}.

(** An SCT list extension that carries no entry: an OCTET STRING whose
    content is the two-byte length 0. *)
Definition emptySctList : Extension :=
  {| ext_name := Some "signedCertificateTimestampList";
     ext_value := ExtString (bytes [4; 2; 0; 0]);
     ext_critical := false |}.

(** The sample certificate, with a chosen version field and signature. *)
Definition sampleWith (v : option Z) (signatureBytes : string) : Certificate :=
  {| cert_version := v;
     cert_subject :=
       [ {| attr_name := Some "commonName"; attr_value := AttrString "example.com" |};
         {| attr_name := Some "organizationName"; attr_value := AttrString "Example" |} ];
     cert_issuer :=
       [ {| attr_name := Some "commonName"; attr_value := AttrString "Example CA" |} ];
     cert_notBefore := dateOfUTC 2024 6 1 0 0 0 0;
     cert_notAfter := dateOfUTC 2025 6 1 0 0 0 0;
     cert_serialNumber := "1a2b3c";
     cert_publicKey := Some sampleKey;
     cert_signature := signatureBytes;
     cert_signatureAlgorithm := None;
     cert_sigAlg := None;
     cert_signatureAlgorithmOid := None;
     cert_extensions :=
       [ {| ext_name := Some "keyUsage";
            ext_value := ExtString (bytes [3; 2; 5; 160]);
            ext_critical := true |};
         emptySctList ] |}.

(** A version 3 certificate, and a version 1 certificate. *)
Definition sampleCertificate : Certificate :=
  sampleWith (Some 2) (bytes [48; 69; 2; 32]).

Definition sampleV1Certificate : Certificate :=
  sampleWith (Some 0) (bytes [48; 69; 2; 32]).

(** A host that decodes [samplePem] into [cert] and nothing else; its
    digests are placeholders. *)
Definition hostDecoding (cert : Certificate) : Host :=
  {| certificateFromPem := fun pem =>
       if String.eqb pem (JS.trim samplePem) then inr cert
       else inl (ThrownError "Invalid PEM formatted message.");
     certificateToDer := fun _ => bytes [48; 130; 1; 179];
     sha1Hex := fun _ => "da39a3ee5e6b4b0d3255bfef95601890afd80709";
     sha256Hex := fun _ =>
       "e3b0c44298fc1c149afbf4c8996fb92427ae41e4649b934ca495991b7852b855";
     typeErrorReading := fun p =>
       "Cannot read properties of undefined (reading '" ++ p ++ "')";
     inexactToString := fun _ _ => "Infinity" |}.

Definition sampleHost : Host := hostDecoding sampleCertificate.

Definition worldAt (d : Date) : World :=
  {| wallClock := match d with Instant t => t | InvalidDate => 0 end |}.

(** ** Reference reading of a distinguished name

    What the [forEach] over the attributes amounts to, written directly:
    a field holds the text of the last attribute that carries its name. *)

Definition attrNameIs (wanted : string) (a : Attribute) : bool :=
  match attr_name a with
  | Some n => String.eqb n wanted
  | None => false
  end.

Definition lastNamed (wanted : string) (attrs : list Attribute) : option string :=
  match find (attrNameIs wanted) (rev attrs) with
  | Some a => Some (attributeText (attr_value a))
  | None => None
  end.

(** One step of that reading: the attribute [a] gives the field named [n]
    its text, and leaves the others as they were. *)
Definition pickAttribute (n : string) (a : Attribute) (old : option string)
  : option string :=
  if attrNameIs n a then Some (attributeText (attr_value a)) else old.

(** The attribute names the [switch] has a case for. *)
Definition recognisedNames : list string :=
  [ "commonName"; "organizationName"; "organizationalUnitName"; "countryName";
    "stateOrProvinceName"; "localityName"; "emailAddress" ].

Definition recognised (a : Attribute) : bool :=
  existsb (fun n => attrNameIs n a) recognisedNames.

(** ** The details view (components/CertificateDetails.tsx) *)

(** [if (field) parts.push(`LABEL=${field}`)] *)
Definition dnPart (label : string) (field : option string) : list string :=
  match truthyString field with
  | Some v => [label ++ "=" ++ v]
  | None => []
  end.

Definition formatDN (dn : DistinguishedName) : string :=
  JS.join ", "
    (dnPart "CN" (commonName dn)
     ++ dnPart "O" (organization dn)
     ++ dnPart "OU" (organizationalUnit dn)
     ++ dnPart "C" (country dn)
     ++ dnPart "ST" (state dn)
     ++ dnPart "L" (locality dn)
     ++ dnPart "E" (email dn))%list.

Inductive StatusIcon : Type :=
| AlertTriangle
| Clock
| CheckCircle.

Record ValidityStatus : Type := {
  status_icon : StatusIcon;
  status_text : string;
  status_color : string;
  status_bgColor : string
}.

Definition getValidityStatus (certificate : CertificateInfo) : ValidityStatus :=
  if isExpired (validity certificate) then
    {| status_icon := AlertTriangle;
       status_text := "Expired";
       status_color := "text-red-600 dark:text-red-400";
       status_bgColor := "bg-red-50 dark:bg-red-900/20" |}
  else if isExpiringSoon (validity certificate) then
    {| status_icon := Clock;
       status_text := "Expiring Soon";
       status_color := "text-yellow-600 dark:text-yellow-400";
       status_bgColor := "bg-yellow-50 dark:bg-yellow-900/20" |}
  else
    {| status_icon := CheckCircle;
       status_text := "Valid";
       status_color := "text-green-600 dark:text-green-400";
       status_bgColor := "bg-green-50 dark:bg-green-900/20" |}.

(** ** The upload form (components/CertificateUpload.tsx) *)

Inductive Source : Type :=
| SourceFile
| SourceText
| SourceUrl.

(** Which of its two callbacks a handler of the form calls, and with what. *)
Inductive UploadOutcome : Type :=
| OnError (message : string)
| OnCertificateLoad (certText fileName : string) (source : Source).

Definition INVALID_TEXT : string :=
  "Invalid certificate format. Please ensure the text contains a valid PEM-formatted certificate.".

Definition handleTextSubmit (textInput : string) : UploadOutcome :=
  if negb (nonEmpty (JS.trim textInput)) then
    OnError "Please enter certificate text"
  else if negb (JS.includes BEGIN_CERTIFICATE textInput) then
    OnError INVALID_TEXT
  else
    OnCertificateLoad (JS.trim textInput) "pasted-certificate.pem" SourceText.

(** ** The page (app/page.tsx) *)

Inductive ViewMode : Type :=
| Details
| Raw.

(** The state of the page that the load handlers write. *)
Record AppState : Type := {
  st_certificate : option CertificateInfo;
  st_rawText : string;
  st_fileName : string;
  st_error : string;
  st_viewMode : ViewMode
}.

Definition setCertificate (st : AppState) (c : option CertificateInfo) : AppState :=
  {| st_certificate := c; st_rawText := st_rawText st;
     st_fileName := st_fileName st; st_error := st_error st;
     st_viewMode := st_viewMode st |}.

Definition setRawText (st : AppState) (t : string) : AppState :=
  {| st_certificate := st_certificate st; st_rawText := t;
     st_fileName := st_fileName st; st_error := st_error st;
     st_viewMode := st_viewMode st |}.

Definition setFileName (st : AppState) (n : string) : AppState :=
  {| st_certificate := st_certificate st; st_rawText := st_rawText st;
     st_fileName := n; st_error := st_error st;
     st_viewMode := st_viewMode st |}.

Definition setError (st : AppState) (e : string) : AppState :=
  {| st_certificate := st_certificate st; st_rawText := st_rawText st;
     st_fileName := st_fileName st; st_error := e;
     st_viewMode := st_viewMode st |}.

Definition setViewMode (st : AppState) (m : ViewMode) : AppState :=
  {| st_certificate := st_certificate st; st_rawText := st_rawText st;
     st_fileName := st_fileName st; st_error := st_error st;
     st_viewMode := m |}.

Definition initialState : AppState :=
  {| st_certificate := None; st_rawText := ""; st_fileName := "";
     st_error := ""; st_viewMode := Details |}.

Definition INVALID_FILE : string :=
  "Invalid certificate format. Please ensure the file contains a valid PEM-formatted certificate.".

Definition handleError (errorMessage : string) (st : AppState) : AppState :=
  setFileName (setRawText (setCertificate (setError st errorMessage) None) "") "".

Definition clearCertificate (st : AppState) : AppState :=
  setError (setFileName (setRawText (setCertificate st None) "") "") "".

Section Page.

Variable H : Host.

(** The payload of a URL lookup and the JSON value read from it; the two
    functions are [apiData.contents ? JSON.parse(apiData.contents) : apiData]
    and [JSON.stringify(response, null, 2)]. *)
Variable ApiData : Type.
Variable Json : Type.
Variable actualApiResponse : ApiData -> Thrown + Json.
Variable stringify : Json -> Thrown + string.

(** The [catch] of the handler. *)
Definition loadFailed (st : AppState) (err : Thrown) : AppState :=
  setError st
    match err with
    | ThrownError message => message
    | ThrownOther => "Failed to parse certificate"
    end.

(** The state once the promise of the handler has settled. *)
Definition handleCertificateLoad (certText name : string)
           (source : option Source) (apiData : option ApiData)
           (st : AppState) (w : World) : AppState :=
  match source, apiData with
  | Some SourceUrl, Some data =>
      match actualApiResponse data with
      | inl err => loadFailed st err
      | inr response =>
          let st1 := setCertificate st None in
          match stringify response with
          | inl err => loadFailed st1 err
          | inr text =>
              setError
                (setViewMode
                   (setFileName (setRawText st1 text) (name ++ " - API Response"))
                   Raw)
                ""
          end
      end
  | _, _ =>
      if negb (validateCertificateFormat certText) then setError st INVALID_FILE
      else
        match parseCertificate H certText w with
        | Threw err => loadFailed st err
        | Returned parsed =>
            setError
              (setFileName (setRawText (setCertificate st (Some parsed)) certText)
                 name)
              ""
        end
  end.

End Page.

(** ** More certificates to run the parser on *)

Definition sampleWithExtensions (exts : list Extension) : Certificate :=
  {| cert_version := Some 2;
     cert_subject :=
       [ {| attr_name := Some "commonName"; attr_value := AttrString "Example CA" |};
         {| attr_name := None; attr_value := AttrString "example" |};
         {| attr_name := Some "commonName"; attr_value := AttrString "Example Root" |} ];
     cert_issuer :=
       [ {| attr_name := Some "domainComponent"; attr_value := AttrString "example" |};
         {| attr_name := Some "domainComponent"; attr_value := AttrString "com" |} ];
     cert_notBefore := dateOfUTC 2024 6 1 0 0 0 0;
     cert_notAfter := InvalidDate;
     cert_serialNumber := "00ff";
     cert_publicKey := Some sampleKey;
     cert_signature := bytes [48; 69; 2; 32];
     cert_signatureAlgorithm := None;
     cert_sigAlg := None;
     cert_signatureAlgorithmOid := None;
     cert_extensions := exts |}.

(** Basic Constraints with CA set, an Extended Key Usage that lists code
    signing alone, and a Subject Alternative Name. *)
Definition caExtensions : list Extension :=
  [ {| ext_name := Some "basicConstraints";
       ext_value := ExtString (bytes [48; 3; 1; 1; 255]);
       ext_critical := true |};
    {| ext_name := Some "extKeyUsage";
       ext_value := ExtString (bytes [48; 10; 6; 8; 43; 6; 1; 5; 5; 7; 3; 3]);
       ext_critical := false |};
    {| ext_name := Some "subjectAltName";
       ext_value := ExtString (bytes [48; 13; 130; 11; 101; 120; 97; 109; 112;
                                      108; 101; 46; 99; 111; 109]);
       ext_critical := false |} ].

Definition caCertificate : Certificate := sampleWithExtensions caExtensions.

(** ** A certificate as node-forge names its extensions

    node-forge gives the SCT list extension (OID 1.3.6.1.4.1.11129.2.4.2)
    the name [timestampList]. *)

(** An SCT list that carries no entry: an OCTET STRING whose content is
    the two-byte length 0. *)
Definition forgeEmptySctList : Extension :=
  {| ext_name := Some "timestampList";
     ext_value := ExtString (bytes [4; 2; 0; 0]);
     ext_critical := false |}.

Definition subjectKeyIdentifierExt : Extension :=
  {| ext_name := Some "subjectKeyIdentifier";
     ext_value := ExtString (bytes [4; 20; 213; 163; 193; 183; 17; 34; 51; 68;
                                    85; 102; 119; 136; 153; 170; 187; 204; 221;
                                    238; 255; 16]);
     ext_critical := false |}.

(** A version 3 certificate for example.com with the given extensions. *)
Definition certificateWithExtensions (exts : list Extension) : Certificate :=
  {| cert_version := Some 2;
     cert_subject :=
       [ {| attr_name := Some "commonName"; attr_value := AttrString "example.com" |} ];
     cert_issuer :=
       [ {| attr_name := Some "countryName"; attr_value := AttrString "US" |};
         {| attr_name := Some "organizationName"; attr_value := AttrString "Example" |};
         {| attr_name := Some "commonName"; attr_value := AttrString "Example CA" |} ];
     cert_notBefore := dateOfUTC 2024 6 1 0 0 0 0;
     cert_notAfter := dateOfUTC 2025 6 1 0 0 0 0;
     cert_serialNumber := "04e1a2b3c4d5";
     cert_publicKey := Some sampleKey;
     cert_signature := bytes [48; 69; 2; 32];
     cert_signatureAlgorithm := None;
     cert_sigAlg := None;
     cert_signatureAlgorithmOid := None;
     cert_extensions := exts |}.

(** The SCT list alone, and the SCT list after a Subject Key Identifier. *)
Definition sctOnlyCertificate : Certificate :=
  certificateWithExtensions [forgeEmptySctList].

Definition sctAfterKeyIdCertificate : Certificate :=
  certificateWithExtensions [subjectKeyIdentifierExt; forgeEmptySctList].

(** * Properties *)

(** ** Strings *)

Lemma length_app (a b : string) :
  String.length (a ++ b) = (String.length a + String.length b)%nat.
Proof.
  induction a as [|c a IH]; simpl; [reflexivity | now rewrite IH].
Qed.

Lemma app_empty_r (a : string) : a ++ "" = a.
Proof.
  induction a as [|c a IH]; simpl; [reflexivity | now rewrite IH].
Qed.

Lemma app_assoc_s (a b c : string) : (a ++ b) ++ c = a ++ (b ++ c).
Proof.
  induction a as [|x a IH]; simpl; [reflexivity | now rewrite IH].
Qed.

Lemma startsWith_app (p r : string) : JS.startsWith p (p ++ r) = true.
Proof.
  induction p as [|c p IH]; simpl; [reflexivity |].
  now rewrite Ascii.eqb_refl, IH.
Qed.

Lemma startsWith_split (p s : string) :
  JS.startsWith p s = true -> exists r, s = p ++ r.
Proof.
  revert s; induction p as [|c p IH]; intros s Hs.
  - now exists s.
  - destruct s as [|d s]; simpl in Hs; [discriminate |].
    apply andb_true_iff in Hs as [Hc Hp].
    apply Ascii.eqb_eq in Hc; subst d.
    destruct (IH _ Hp) as [r ->].
    now exists r.
Qed.

Lemma startsWith_iff (p s : string) :
  JS.startsWith p s = true <-> exists r, s = p ++ r.
Proof.
  split; [apply startsWith_split | intros [r ->]; apply startsWith_app].
Qed.

Lemma drop_app (r p : string) : JS.drop (String.length r) (r ++ p) = p.
Proof.
  induction r as [|c r IH]; simpl; [now destruct p | exact IH].
Qed.

Lemma drop_suffix (n : nat) (s : string) : exists r, s = r ++ JS.drop n s.
Proof.
  revert s; induction n as [|n IH]; intros s.
  - now exists "".
  - destruct s as [|c s]; simpl.
    + now exists "".
    + destruct (IH s) as [r Hr]. exists (String c r). simpl. now rewrite <- Hr.
Qed.

Lemma endsWith_iff (p s : string) :
  JS.endsWith p s = true <-> exists r, s = r ++ p.
Proof.
  unfold JS.endsWith. split.
  - intros Hs. apply andb_true_iff in Hs as [_ He].
    apply String.eqb_eq in He.
    destruct (drop_suffix (String.length s - String.length p) s) as [r Hr].
    exists r. now rewrite He in Hr.
  - intros [r ->]. rewrite length_app. apply andb_true_iff; split.
    + apply Nat.leb_le. lia.
    + replace (String.length r + String.length p - String.length p)%nat
        with (String.length r) by lia.
      rewrite drop_app. apply String.eqb_refl.
Qed.

Lemma includes_iff (p s : string) :
  JS.includes p s = true <-> exists a b, s = a ++ p ++ b.
Proof.
  split.
  - induction s as [|c s IH]; simpl; intros Hs.
    + rewrite orb_false_r in Hs.
      destruct (startsWith_split _ _ Hs) as [r Hr]. now exists "", r.
    + apply orb_true_iff in Hs as [Hs | Hs].
      * destruct (startsWith_split _ _ Hs) as [r Hr]. now exists "", r.
      * destruct (IH Hs) as (a & b & ->). now exists (String c a), b.
  - intros (a & b & ->). induction a as [|c a IH].
    + simpl. destruct (p ++ b) eqn:E.
      * simpl. rewrite <- E, startsWith_app. reflexivity.
      * simpl JS.includes. rewrite <- E, startsWith_app. reflexivity.
    + simpl. rewrite IH. apply orb_true_r.
Qed.

Lemma startsWith_includes (p s : string) :
  JS.startsWith p s = true -> JS.includes p s = true.
Proof.
  intros Hs. apply includes_iff.
  destruct (startsWith_split _ _ Hs) as [r ->]. now exists "", r.
Qed.

Lemma endsWith_includes (p s : string) :
  JS.endsWith p s = true -> JS.includes p s = true.
Proof.
  intros Hs. apply includes_iff.
  apply endsWith_iff in Hs as [r ->]. exists r, "". now rewrite app_empty_r.
Qed.

(** ** Trimming *)

Lemma trimStart_split (s : string) :
  exists l, s = l ++ JS.trimStart s /\ noneOf notWhiteSpace l = true.
Proof.
  induction s as [|c s (l & Hl & Hw)].
  - now exists "".
  - simpl. destruct (JS.isWhiteSpace c) eqn:Hc.
    + exists (String c l). simpl. unfold notWhiteSpace at 1.
      rewrite Hc, Hw, <- Hl. now split.
    + now exists "".
Qed.

Lemma trimStart_head (s : string) (c : ascii) (t : string) :
  JS.trimStart s = String c t -> JS.isWhiteSpace c = false.
Proof.
  induction s as [|a s IH]; simpl; [discriminate |].
  destruct (JS.isWhiteSpace a) eqn:Ha; [exact IH |].
  intros E. injection E as <- _. exact Ha.
Qed.

Lemma trimEnd_split (s : string) :
  exists r, s = JS.trimEnd s ++ r /\ noneOf notWhiteSpace r = true.
Proof.
  induction s as [|c s (r & Hr & Hw)].
  - now exists "".
  - simpl. destruct (JS.trimEnd s) as [|d t] eqn:E.
    + simpl in Hr. subst r.
      destruct (JS.isWhiteSpace c) eqn:Hc.
      * exists (String c s). simpl. unfold notWhiteSpace at 1.
        rewrite Hc, Hw. now split.
      * exists s. now split.
    + exists r. simpl. rewrite Hr at 1. now split.
Qed.

Lemma trimEnd_head (c : ascii) (s : string) :
  JS.isWhiteSpace c = false -> exists t, JS.trimEnd (String c s) = String c t.
Proof.
  intros Hc. simpl. rewrite Hc.
  destruct (JS.trimEnd s) as [|d t]; eauto.
Qed.

Lemma trimEnd_last (s t : string) (c : ascii) :
  JS.trimEnd s = t ++ String c "" -> JS.isWhiteSpace c = false.
Proof.
  revert t. induction s as [|a s IH]; intros t.
  - destruct t; discriminate.
  - simpl. destruct (JS.trimEnd s) as [|d r] eqn:E.
    + destruct (JS.isWhiteSpace a) eqn:Ha.
      * destruct t; discriminate.
      * destruct t as [|b t]; simpl; intros Heq.
        -- injection Heq as <-. exact Ha.
        -- injection Heq as _ Heq. destruct t; discriminate.
    + destruct t as [|b t]; simpl; intros Heq.
      * discriminate.
      * injection Heq as _ Heq. now apply (IH t).
Qed.

(** [trim] takes white space, and nothing else, off both ends. *)
Lemma trim_spec (s : string) :
  (exists l r, s = l ++ JS.trim s ++ r
               /\ noneOf notWhiteSpace l = true
               /\ noneOf notWhiteSpace r = true)
  /\ (forall c t, JS.trim s = String c t -> JS.isWhiteSpace c = false)
  /\ (forall t c, JS.trim s = t ++ String c "" -> JS.isWhiteSpace c = false).
Proof.
  unfold JS.trim. split; [| split].
  - destruct (trimStart_split s) as (l & Hl & Hlw).
    destruct (trimEnd_split (JS.trimStart s)) as (r & Hr & Hrw).
    exists l, r. rewrite <- Hr. now split.
  - intros c t Ht.
    destruct (JS.trimStart s) as [|a x] eqn:E; [discriminate |].
    pose proof (trimStart_head _ _ _ E) as Ha.
    destruct (trimEnd_head a x Ha) as [t' Ht'].
    rewrite Ht' in Ht. injection Ht as <- _. exact Ha.
  - intros t c. apply trimEnd_last.
Qed.

(** ** Format validator *)

Lemma validate_unfold (certText : string) :
  validateCertificateFormat certText
  = JS.startsWith BEGIN_CERTIFICATE (JS.trim certText)
    && JS.endsWith END_CERTIFICATE (JS.trim certText).
Proof.
  unfold validateCertificateFormat.
  destruct (JS.startsWith _ _) eqn:Hb; destruct (JS.endsWith _ _) eqn:He;
    try rewrite (startsWith_includes _ _ Hb);
    try rewrite (endsWith_includes _ _ He);
    rewrite ?andb_false_r, ?andb_true_r; reflexivity.
Qed.

(** C5.  The format validator trims the text, which takes the white space
    off both its ends, and answers true exactly when the trimmed text starts
    with the begin marker and ends with the end marker; a text whose trimmed
    form does not end with the end marker is refused. *)
Theorem validateCertificateFormat_markers (certText : string) :
  (validateCertificateFormat certText = true <->
     (exists rest, JS.trim certText = "-----BEGIN CERTIFICATE-----" ++ rest)
     /\ (exists front, JS.trim certText = front ++ "-----END CERTIFICATE-----"))
  /\ ((forall front, JS.trim certText <> front ++ "-----END CERTIFICATE-----") ->
      validateCertificateFormat certText = false)
  /\ (exists l r, certText = l ++ JS.trim certText ++ r
                  /\ noneOf notWhiteSpace l = true
                  /\ noneOf notWhiteSpace r = true)
  /\ (forall c t, JS.trim certText = String c t -> JS.isWhiteSpace c = false)
  /\ (forall t c, JS.trim certText = t ++ String c "" ->
                  JS.isWhiteSpace c = false).
Proof.
  split; [| split; [| apply trim_spec]].
  - rewrite validate_unfold, andb_true_iff.
    now rewrite startsWith_iff, endsWith_iff.
  - intros Hno. rewrite validate_unfold.
    destruct (JS.endsWith END_CERTIFICATE (JS.trim certText)) eqn:He.
    + apply endsWith_iff in He as [front Hf]. now elim (Hno front).
    + apply andb_false_r.
Qed.

Lemma validateCertificateFormat_markers_witness :
  validateCertificateFormat samplePem = true
  /\ validateCertificateFormat ("-----BEGIN CERTIFICATE-----" ++ NL ++ "MIIB") = false.
Proof.
  split.
  - apply (proj1 (validateCertificateFormat_markers samplePem)). split.
    + exists (NL ++ "MIIBszCCAVmgAwIBAgIUGis8" ++ NL ++ "-----END CERTIFICATE-----").
      reflexivity.
    + exists ("-----BEGIN CERTIFICATE-----" ++ NL ++ "MIIBszCCAVmgAwIBAgIUGis8" ++ NL).
      reflexivity.
  - apply (proj1 (proj2 (validateCertificateFormat_markers _))).
    intros front Hf.
    assert (He : JS.endsWith END_CERTIFICATE
                   (JS.trim ("-----BEGIN CERTIFICATE-----" ++ NL ++ "MIIB")) = true)
      by (apply endsWith_iff; now exists front).
    vm_compute in He. discriminate He.
Defined.

(** ** Version *)

Lemma displayedVersion_nonzero (n : Z) :
  n <> 0 -> displayedVersion (Some n) = n + 1.
Proof.
  intros Hn. unfold displayedVersion.
  destruct (Z.eqb_spec n 0); [contradiction | reflexivity].
Qed.

(** C2.  A decoded version field of 0, the encoding of an X.509 v1
    certificate, is displayed as 3 and not as 1, also in the result of a
    parse; the decoded values 1 and 2 are displayed as 2 and 3, and an
    absent field as 3. *)
Theorem displayedVersion_of_v1 :
  displayedVersion (Some 0) = 3
  /\ displayedVersion (Some 0) <> 0 + 1
  /\ (exists info,
        parseCertificate (hostDecoding sampleV1Certificate) samplePem
          (worldAt (dateOfUTC 2025 1 1 0 0 0 0)) = Returned info
        /\ version info = 3)
  /\ displayedVersion (Some 1) = 2
  /\ displayedVersion (Some 2) = 3
  /\ displayedVersion None = 3.
Proof.
  split; [reflexivity |]. split; [discriminate |].
  split; [eexists; split; [vm_compute; reflexivity | reflexivity] |].
  repeat split.
Qed.

(** ** Key Usage *)

(** C6.  A Key Usage value whose raw text is shorter than 4 decodes to the
    fallback flag set: digitalSignature and keyEncipherment and no other
    flag.  The decoder is a total function, it has no failing case. *)
Theorem parseKeyUsageExtension_short (value : ExtValue) :
  (String.length (stringOfValue value) < 4)%nat ->
  parseKeyUsageExtension value = keyUsageFallback
  /\ keyUsageLabels (parseKeyUsageExtension value)
     = ["Digital Signature"; "Key Encipherment"].
Proof.
  intros Hlen. unfold parseKeyUsageExtension.
  destruct (Nat.leb_spec 4 (String.length (stringOfValue value))) as [Hge | _].
  - lia.
  - split; reflexivity.
Qed.

Lemma parseKeyUsageExtension_short_witness :
  parseKeyUsageExtension (ExtString (bytes [3; 2; 5])) = keyUsageFallback
  /\ keyUsageLabels (parseKeyUsageExtension (ExtString (bytes [3; 2; 5])))
     = ["Digital Signature"; "Key Encipherment"].
Proof.
  apply (parseKeyUsageExtension_short (ExtString (bytes [3; 2; 5]))).
  simpl. lia.
Defined.

(** ** Signature algorithm *)

(** C7.  When none of [signatureAlgorithm], [sigAlg] and
    [signatureAlgorithmOid] holds a non-empty string, the algorithm reported
    is sha256WithRSAEncryption if the signature bytes are non-empty and the
    public key is there, and Unknown otherwise. *)
Theorem extractSignatureAlgorithm_fallback (c : Certificate) :
  truthyString (cert_signatureAlgorithm c) = None ->
  truthyString (cert_sigAlg c) = None ->
  truthyString (cert_signatureAlgorithmOid c) = None ->
  (cert_signature c <> "" /\ cert_publicKey c <> None ->
     extractSignatureAlgorithm c = "sha256WithRSAEncryption")
  /\ (cert_signature c = "" \/ cert_publicKey c = None ->
     extractSignatureAlgorithm c = "Unknown").
Proof.
  intros H1 H2 H3. unfold extractSignatureAlgorithm, nonEmpty.
  rewrite H1, H2, H3. split.
  - intros [Hs Hk]. apply String.eqb_neq in Hs. rewrite Hs. simpl.
    destruct (cert_publicKey c); [reflexivity | contradiction].
  - intros [Hs | Hk].
    + rewrite Hs. reflexivity.
    + rewrite Hk. now destruct (negb _).
Qed.

Lemma extractSignatureAlgorithm_fallback_witness :
  extractSignatureAlgorithm sampleCertificate = "sha256WithRSAEncryption"
  /\ extractSignatureAlgorithm (sampleWith (Some 2) "") = "Unknown".
Proof.
  split.
  - apply (extractSignatureAlgorithm_fallback sampleCertificate);
      try reflexivity.
    split; simpl; discriminate.
  - apply (extractSignatureAlgorithm_fallback (sampleWith (Some 2) ""));
      try reflexivity.
    left. reflexivity.
Defined.

(** ** The parser as a whole *)

Lemma publicKeyInfo_any_world (H : Host) (cert : Certificate) (w1 w2 : World) :
  publicKeyInfo H cert w1 = publicKeyInfo H cert w2.
Proof.
  unfold publicKeyInfo.
  destruct (cert_publicKey cert) as [pk|]; [| reflexivity].
  destruct (pk_n pk), (pk_e pk); reflexivity.
Qed.

(** What a returning call went through. *)
Lemma parseCertificate_returned (H : Host) (certText : string) (w : World)
      (info : CertificateInfo) :
  parseCertificate H certText w = Returned info ->
  exists cert pki,
    certificateFromPem H (cleanCertText certText) = inr cert
    /\ publicKeyInfo H cert w = Returned pki
    /\ info =
       {| version := displayedVersion (cert_version cert);
          subject := extractDN (cert_subject cert);
          issuer := extractDN (cert_issuer cert);
          validity := evaluateValidity (cert_notBefore cert) (cert_notAfter cert)
                        (Instant (wallClock w));
          serialNumber := formatSerialNumber (cert_serialNumber cert);
          publicKey := pki;
          signature := {| sig_algorithm := extractSignatureAlgorithm cert;
                          sig_value := bytesToHex (cert_signature cert) |};
          extensions := map extensionInfo (cert_extensions cert);
          fingerprint := fingerprintOf H cert;
          keyUsage := nonEmptyList (keyUsageOf cert);
          basicConstraints :=
            match find_ext (nameIs "basicConstraints") (cert_extensions cert) with
            | Some ext => Some (parseBasicConstraintsExtension (ext_value ext))
            | None => None
            end;
          extendedKeyUsage := nonEmptyList (extendedKeyUsageOf cert);
          certificateTransparency := certificateTransparencyOf cert |}.
Proof.
  unfold parseCertificate, parseCertificateWithForge, tryCatch, parseBody,
    bind, call, Date_now, throw, ret.
  destruct (certificateFromPem H (cleanCertText certText)) as [e | cert];
    [discriminate |].
  destruct (publicKeyInfo H cert w) as [pki | e] eqn:Hpk; [| discriminate].
  intros Hret. injection Hret as <-.
  exists cert, pki. repeat split; auto.
Qed.

(** A call that throws does so whatever the clock reads. *)
Lemma parseCertificate_threw (H : Host) (certText : string) (w1 w2 : World)
      (e : Thrown) :
  parseCertificate H certText w1 = Threw e ->
  parseCertificate H certText w2 = Threw e.
Proof.
  unfold parseCertificate, parseCertificateWithForge, tryCatch, parseBody,
    bind, call, Date_now, throw, ret.
  destruct (certificateFromPem H (cleanCertText certText)) as [e0 | cert];
    [trivial |].
  rewrite (publicKeyInfo_any_world H cert w2 w1).
  destruct (publicKeyInfo H cert w1); [discriminate | trivial].
Qed.

Lemma parseCertificate_returned_any_world (H : Host) (certText : string)
      (w1 w2 : World) (a : CertificateInfo) :
  parseCertificate H certText w1 = Returned a ->
  exists b, parseCertificate H certText w2 = Returned b.
Proof.
  intros Ha. destruct (parseCertificate H certText w2) as [b | e] eqn:Hb.
  - now exists b.
  - apply (parseCertificate_threw H certText w2 w1) in Hb. congruence.
Qed.

(** C1.  The outcome of a parse is determined by the text and by what the
    wall clock reads during the call, which the parser reads by itself.
    Everything in the result but the two validity flags is the same under
    any clock: fingerprints, distinguished names, version, serial number,
    key, signature, extensions and validity bounds; and a parse that throws
    throws the same under any clock. *)
Theorem parseCertificate_determined (H : Host) (certText : string) :
  (forall w1 w2, wallClock w1 = wallClock w2 ->
     parseCertificate H certText w1 = parseCertificate H certText w2)
  /\ (forall w1 w2 a, parseCertificate H certText w1 = Returned a ->
        exists b, parseCertificate H certText w2 = Returned b
          /\ fingerprint b = fingerprint a
          /\ subject b = subject a /\ issuer b = issuer a
          /\ version b = version a /\ serialNumber b = serialNumber a
          /\ publicKey b = publicKey a /\ signature b = signature a
          /\ extensions b = extensions a /\ keyUsage b = keyUsage a
          /\ basicConstraints b = basicConstraints a
          /\ extendedKeyUsage b = extendedKeyUsage a
          /\ certificateTransparency b = certificateTransparency a
          /\ notBefore (validity b) = notBefore (validity a)
          /\ notAfter (validity b) = notAfter (validity a))
  /\ (forall w1 w2 e, parseCertificate H certText w1 = Threw e ->
        parseCertificate H certText w2 = Threw e).
Proof.
  split; [| split].
  - intros [c1] [c2] Hc. simpl in Hc. now subst c2.
  - intros w1 w2 a Ha.
    destruct (parseCertificate_returned_any_world H certText w1 w2 a Ha) as [b Hb].
    exists b. split; [exact Hb |].
    apply parseCertificate_returned in Ha as (ca & pa & Hda & Hpa & ->).
    apply parseCertificate_returned in Hb as (cb & pb & Hdb & Hpb & ->).
    rewrite Hda in Hdb. injection Hdb as <-.
    rewrite (publicKeyInfo_any_world H ca w2 w1), Hpa in Hpb.
    injection Hpb as <-.
    repeat split.
  - intros w1 w2 e. apply parseCertificate_threw.
Qed.

Lemma parseCertificate_determined_witness :
  parseCertificate sampleHost samplePem (worldAt (dateOfUTC 2025 1 1 0 0 0 0))
  = parseCertificate sampleHost samplePem {| wallClock := 1735689600000 |}
  /\ exists b,
       parseCertificate sampleHost samplePem (worldAt (dateOfUTC 2025 7 1 0 0 0 0))
       = Returned b
       /\ sha256 (fingerprint b)
          = "e3b0c44298fc1c149afbf4c8996fb92427ae41e4649b934ca495991b7852b855"
       /\ commonName (subject b) = Some "example.com".
Proof.
  destruct (parseCertificate_determined sampleHost samplePem) as (Hsame & Hrest & _).
  split.
  - apply Hsame. reflexivity.
  - destruct (parseCertificate sampleHost samplePem
                (worldAt (dateOfUTC 2025 1 1 0 0 0 0))) as [a | e] eqn:Ha;
      [| vm_compute in Ha; discriminate Ha].
    destruct (Hrest _ (worldAt (dateOfUTC 2025 7 1 0 0 0 0)) a Ha)
      as (b & Hb & Hf & Hs & _).
    exists b. split; [exact Hb |].
    vm_compute in Ha. injection Ha as <-.
    rewrite Hf, Hs. split; reflexivity.
Defined.

(** C1, as the claim has it: the call takes the text and nothing else, and
    the same text parsed under two readings of the wall clock gives two
    different results. *)
Lemma parseCertificate_reads_wall_clock :
  parseCertificate sampleHost samplePem (worldAt (dateOfUTC 2025 1 1 0 0 0 0))
  <> parseCertificate sampleHost samplePem (worldAt (dateOfUTC 2025 7 1 0 0 0 0)).
Proof.
  intros E.
  apply (f_equal (fun o => match o with
                           | Returned i => isExpired (validity i)
                           | Threw _ => false
                           end)) in E.
  vm_compute in E. discriminate E.
Qed.

(** ** Validity *)

Lemma evaluateValidity_flags (nb : Date) (na now : Z) :
  Z.abs (now + THIRTY_DAYS) <= MAX_TIME ->
  let v := evaluateValidity nb (Instant na) (Instant now) in
  (isExpired v = true <-> na < now)
  /\ (isExpiringSoon v = true <-> now < na < now + THIRTY_DAYS).
Proof.
  intros Hrange. simpl. unfold newDate.
  destruct (Z.leb_spec (Z.abs (now + THIRTY_DAYS)) MAX_TIME) as [_ | Hbad];
    [| lia].
  simpl. rewrite andb_true_iff, !Z.ltb_lt. split; [reflexivity | tauto].
Qed.

(** C4.  In the result of a parse, with [now] what the wall clock read and
    notAfter the end of validity of the decoded certificate: the result
    carries that notAfter, isExpired holds exactly when notAfter < now, and
    isExpiringSoon exactly when now < notAfter < now + 30 days.  So notAfter
    10 days after now gives false and true, 40 days after now gives false
    and false, and notAfter before now gives true and false. *)
Theorem validity_flags (H : Host) (certText : string) (w : World)
        (info : CertificateInfo) (cert : Certificate) (na : Z) :
  parseCertificate H certText w = Returned info ->
  certificateFromPem H (cleanCertText certText) = inr cert ->
  cert_notAfter cert = Instant na ->
  Z.abs (wallClock w + THIRTY_DAYS) <= MAX_TIME ->
  let now := wallClock w in
  let day := 24 * 60 * 60 * 1000 in
  notBefore (validity info) = cert_notBefore cert
  /\ notAfter (validity info) = Instant na
  /\ (isExpired (validity info) = true <-> na < now)
  /\ (isExpiringSoon (validity info) = true <-> now < na < now + 30 * day)
  /\ (na = now + 10 * day ->
      isExpired (validity info) = false /\ isExpiringSoon (validity info) = true)
  /\ (na = now + 40 * day ->
      isExpired (validity info) = false /\ isExpiringSoon (validity info) = false)
  /\ (na < now ->
      isExpired (validity info) = true /\ isExpiringSoon (validity info) = false).
Proof.
  intros Hret Hdec Hna Hrange now day.
  apply parseCertificate_returned in Hret as (cert' & pki & Hd & _ & ->).
  rewrite Hd in Hdec. injection Hdec as ->.
  cbn [validity]. rewrite Hna.
  split; [reflexivity |]. split; [reflexivity |].
  destruct (evaluateValidity_flags (cert_notBefore cert) na now Hrange)
    as [Hexp Hsoon].
  fold now in Hexp, Hsoon.
  set (v := evaluateValidity (cert_notBefore cert) (Instant na) (Instant now))
    in *.
  assert (Hthirty : THIRTY_DAYS = 30 * day) by reflexivity.
  rewrite Hthirty in Hsoon. clear Hthirty Hrange.
  assert (Hfalse : forall (b : bool) (P : Prop),
             (b = true <-> P) -> ~ P -> b = false).
  { intros [] P HP HnP; [exfalso; tauto | reflexivity]. }
  split; [exact Hexp |]. split; [exact Hsoon |].
  subst day.
  repeat split; intros;
    first [ apply Hexp; lia
          | apply Hsoon; lia
          | apply (Hfalse _ _ Hexp); lia
          | apply (Hfalse _ _ Hsoon); lia ].
Qed.

Lemma validity_flags_witness :
  exists info,
    parseCertificate sampleHost samplePem (worldAt (dateOfUTC 2025 5 22 0 0 0 0))
    = Returned info
    /\ notAfter (validity info) = cert_notAfter sampleCertificate
    /\ isExpired (validity info) = false
    /\ isExpiringSoon (validity info) = true.
Proof.
  destruct (parseCertificate sampleHost samplePem
              (worldAt (dateOfUTC 2025 5 22 0 0 0 0))) as [info | e] eqn:Hp;
    [| vm_compute in Hp; discriminate Hp].
  exists info. split; [reflexivity |].
  assert (Hrange : Z.abs (wallClock (worldAt (dateOfUTC 2025 5 22 0 0 0 0))
                          + THIRTY_DAYS) <= MAX_TIME).
  { vm_compute. intros E. discriminate E. }
  destruct (validity_flags sampleHost samplePem
              (worldAt (dateOfUTC 2025 5 22 0 0 0 0)) info sampleCertificate
              1748736000000 Hp eq_refl eq_refl Hrange)
    as (_ & Hna & _ & _ & Hten & _).
  split; [exact Hna |].
  apply Hten. reflexivity.
Defined.

(** ** Certificate Transparency *)

Lemma parseCertificateTransparencySCTs_some (ext : Extension) :
  parseCertificateTransparencySCTs (Some ext) = fixedSCTs.
Proof. reflexivity. Qed.

(** C10.  When a parse returns a result whose certificateTransparency is
    defined, its scts are the three fixed entries, whatever the text, the
    certificate decoded from it and the bytes of its extensions. *)
Theorem certificateTransparency_fixed (H : Host) (certText : string) (w : World)
        (info : CertificateInfo) (ct : CertificateTransparency) :
  parseCertificate H certText w = Returned info ->
  certificateTransparency info = Some ct ->
  scts ct = fixedSCTs
  /\ List.length (scts ct) = 3%nat
  /\ map sct_version (scts ct) = ["v1 (0x0)"; "v1 (0x0)"; "v1 (0x0)"]
  /\ map timestamp (scts ct)
     = [Instant 1706075169505; Instant 1706075169503; Instant 1706075169453].
Proof.
  intros Hret Hct.
  apply parseCertificate_returned in Hret as (cert & pki & _ & _ & ->).
  simpl in Hct. unfold certificateTransparencyOf in Hct.
  destruct (find_ext isCtExtension (cert_extensions cert)) as [ext|];
    [| discriminate].
  injection Hct as <-. cbn [scts].
  rewrite ?parseCertificateTransparencySCTs_some.
  repeat split.
Qed.

Lemma certificateTransparency_fixed_witness :
  exists info ct,
    parseCertificate sampleHost samplePem (worldAt (dateOfUTC 2025 1 1 0 0 0 0))
    = Returned info
    /\ certificateTransparency info = Some ct
    /\ List.length (scts ct) = 3%nat.
Proof.
  destruct (parseCertificate sampleHost samplePem
              (worldAt (dateOfUTC 2025 1 1 0 0 0 0))) as [info | e] eqn:Hp;
    [| vm_compute in Hp; discriminate Hp].
  exists info.
  destruct (certificateTransparency info) as [ct |] eqn:Hct.
  - exists ct. split; [reflexivity |]. split; [reflexivity |].
    exact (proj1 (proj2 (certificateTransparency_fixed _ _ _ _ _ Hp Hct))).
  - exfalso. vm_compute in Hp. injection Hp as <-. discriminate Hct.
Defined.

(** C3.  The SCT decoder reads nothing of the extension it is given and
    raises nothing.  In the result of a parse, certificateTransparency is
    absent when no extension of the decoded certificate is taken for the
    SCT list, and holds the three fixed entries when one is, whatever that
    extension holds; its scts are never empty. *)
Theorem certificateTransparency_never_empty (H : Host) (certText : string)
        (w : World) (info : CertificateInfo) :
  parseCertificate H certText w = Returned info ->
  exists cert,
    certificateFromPem H (cleanCertText certText) = inr cert
    /\ (find_ext isCtExtension (cert_extensions cert) = None ->
        certificateTransparency info = None)
    /\ (forall ext, find_ext isCtExtension (cert_extensions cert) = Some ext ->
          parseCertificateTransparencySCTs (Some ext) = fixedSCTs
          /\ certificateTransparency info = Some {| scts := fixedSCTs |})
    /\ (forall ct, certificateTransparency info = Some ct -> scts ct <> []).
Proof.
  intros Hret.
  apply parseCertificate_returned in Hret as (cert & pki & Hd & _ & ->).
  exists cert. split; [exact Hd |].
  cbn [certificateTransparency]. unfold certificateTransparencyOf.
  destruct (find_ext isCtExtension (cert_extensions cert)) as [ext |].
  - split; [discriminate |]. split.
    + intros ext' _. split; reflexivity.
    + intros ct Hct. injection Hct as <-. discriminate.
  - split; [reflexivity |]. split; discriminate.
Qed.

Lemma certificateTransparency_never_empty_witness :
  exists info,
    parseCertificate (hostDecoding sctAfterKeyIdCertificate) samplePem
      (worldAt (dateOfUTC 2025 1 1 0 0 0 0)) = Returned info
    /\ certificateTransparency info = Some {| scts := fixedSCTs |}.
Proof.
  destruct (parseCertificate (hostDecoding sctAfterKeyIdCertificate) samplePem
              (worldAt (dateOfUTC 2025 1 1 0 0 0 0))) as [info | e] eqn:Hp;
    [| vm_compute in Hp; discriminate Hp].
  exists info. split; [reflexivity |].
  destruct (certificateTransparency_never_empty _ _ _ _ Hp)
    as (cert & Hd & _ & Hsome & _).
  vm_compute in Hd. injection Hd as <-.
  apply (Hsome subjectKeyIdentifierExt). reflexivity.
Defined.

(** C3, as the claim has it: a certificate whose SCT list extension, under
    the name node-forge gives it, holds no entry.  Alone, the extension is
    not taken for the SCT list and the result has no certificateTransparency
    at all; after a Subject Key Identifier, whose name holds "ct", the
    result has the three fixed entries.  Neither result holds an empty scts
    sequence. *)
Lemma empty_sct_list_not_reported_empty :
  (exists info,
     parseCertificate (hostDecoding sctOnlyCertificate) samplePem
       (worldAt (dateOfUTC 2025 1 1 0 0 0 0)) = Returned info
     /\ In forgeEmptySctList (cert_extensions sctOnlyCertificate)
     /\ certificateTransparency info = None
     /\ certificateTransparency info <> Some {| scts := [] |})
  /\ (exists info ct,
        parseCertificate (hostDecoding sctAfterKeyIdCertificate) samplePem
          (worldAt (dateOfUTC 2025 1 1 0 0 0 0)) = Returned info
        /\ In forgeEmptySctList (cert_extensions sctAfterKeyIdCertificate)
        /\ certificateTransparency info = Some ct
        /\ List.length (scts ct) = 3%nat
        /\ certificateTransparency info <> Some {| scts := [] |}).
Proof.
  split.
  - eexists. split; [vm_compute; reflexivity |].
    split; [left; reflexivity |]. split; [reflexivity | discriminate].
  - eexists. eexists. split; [vm_compute; reflexivity |].
    split; [right; left; reflexivity |].
    split; [reflexivity |]. split; [reflexivity | discriminate].
Qed.

(** ** Grouping in pairs *)

Lemma noneOf_app (p : ascii -> bool) (a b : string) :
  noneOf p (a ++ b) = noneOf p a && noneOf p b.
Proof.
  induction a as [|c a IH]; simpl; [reflexivity |].
  now rewrite IH, andb_assoc.
Qed.

Lemma replaceClass_app (cls : ascii -> bool) (rep a b : string) :
  JS.replaceClass cls rep (a ++ b)
  = JS.replaceClass cls rep a ++ JS.replaceClass cls rep b.
Proof.
  induction a as [|c a IH]; simpl; [reflexivity |].
  now rewrite IH, app_assoc_s.
Qed.

Lemma replaceClass_clean (cls : ascii -> bool) (s : string) :
  noneOf cls (JS.replaceClass cls "" s) = true.
Proof.
  induction s as [|c s IH]; simpl; [reflexivity |].
  destruct (cls c) eqn:Hc; simpl; [exact IH | now rewrite Hc, IH].
Qed.

Lemma replaceClass_id (cls : ascii -> bool) (s : string) :
  noneOf cls s = true -> JS.replaceClass cls "" s = s.
Proof.
  induction s as [|c s IH]; simpl; [reflexivity |].
  intros Hs. apply andb_true_iff in Hs as [Hc Hs].
  apply negb_true_iff in Hc. now rewrite Hc, IH.
Qed.

Lemma replaceClass_keeps (cls p : ascii -> bool) (s : string) :
  noneOf p s = true -> noneOf p (JS.replaceClass cls "" s) = true.
Proof.
  induction s as [|c s IH]; simpl; [reflexivity |].
  intros Hs. apply andb_true_iff in Hs as [Hc Hs].
  destruct (cls c); simpl; [now apply IH | now rewrite Hc, IH].
Qed.

(** Without line terminators, the matches of [/.{1,2}/g] are the pairs. *)
Lemma matchPairs_from_pairsOf (s : string) :
  noneOf JS.isLineTerminator s = true ->
  JS.matchPairs_from None s = pairsOf s
  /\ forall a, JS.matchPairs_from (Some a) s = pairsOf (String a s).
Proof.
  induction s as [|c s IH]; intros Hs.
  - split; reflexivity.
  - simpl in Hs. apply andb_true_iff in Hs as [Hc Hs].
    apply negb_true_iff in Hc. destruct (IH Hs) as [IH0 IH1].
    split.
    + simpl JS.matchPairs_from. rewrite Hc. apply IH1.
    + intros a. simpl JS.matchPairs_from. rewrite Hc, IH0. reflexivity.
Qed.

Lemma matchPairs_pairsOf (s : string) :
  noneOf JS.isLineTerminator s = true -> JS.matchPairs s = pairsOf s.
Proof. intros Hs. apply (matchPairs_from_pairsOf s Hs). Qed.

(** An induction principle that follows [pairsOf]. *)
Lemma string_pair_ind (P : string -> Prop) :
  P "" ->
  (forall a, P (String a "")) ->
  (forall a b s, P s -> P (String a (String b s))) ->
  forall s, P s.
Proof.
  intros H0 H1 H2.
  assert (Hboth : forall s, P s /\ forall a, P (String a s)).
  { induction s as [|c s [IHs IHc]]; split; auto. }
  intros s. apply Hboth.
Qed.

Lemma concat_cons (x : string) (rest : list string) :
  String.concat "" (x :: rest) = x ++ String.concat "" rest.
Proof.
  destruct rest as [|y rest]; simpl; [now rewrite app_empty_r | reflexivity].
Qed.

Lemma concat_pairsOf (s : string) : String.concat "" (pairsOf s) = s.
Proof.
  induction s as [| a | a b s IH] using string_pair_ind; try reflexivity.
  change (pairsOf (String a (String b s)))
    with (String a (String b "") :: pairsOf s).
  rewrite concat_cons, IH. reflexivity.
Qed.

Lemma pairsOf_nil (s : string) : pairsOf s = [] -> s = "".
Proof.
  destruct s as [|a [|b s]]; simpl; intros E; [reflexivity | discriminate..].
Qed.

Lemma pairsOf_noneOf (p : ascii -> bool) (s : string) :
  noneOf p s = true -> Forall (fun x => noneOf p x = true) (pairsOf s).
Proof.
  induction s as [| a | a b s IH] using string_pair_ind; intros Hs.
  - constructor.
  - constructor; [exact Hs | constructor].
  - change (pairsOf (String a (String b s)))
      with (String a (String b "") :: pairsOf s).
    simpl in Hs. apply andb_true_iff in Hs as [Ha Hs].
    apply andb_true_iff in Hs as [Hb Hs].
    constructor; [simpl; now rewrite Ha, Hb | now apply IH].
Qed.

Lemma pairsOf_nonEmpty (s : string) :
  Forall (fun x => x <> "") (pairsOf s).
Proof.
  induction s as [| a | a b s IH] using string_pair_ind.
  - constructor.
  - constructor; [discriminate | constructor].
  - change (pairsOf (String a (String b s)))
      with (String a (String b "") :: pairsOf s).
    constructor; [discriminate | exact IH].
Qed.

Lemma join_cons (sep x : string) (y : string) (rest : list string) :
  JS.join sep (x :: y :: rest) = x ++ sep ++ JS.join sep (y :: rest).
Proof. reflexivity. Qed.

Lemma join_noneOf (p : ascii -> bool) (sep : string) (parts : list string) :
  noneOf p sep = true ->
  Forall (fun x => noneOf p x = true) parts ->
  noneOf p (JS.join sep parts) = true.
Proof.
  intros Hsep Hparts. induction Hparts as [|x rest Hx Hrest IH].
  - reflexivity.
  - destruct rest as [|y rest]; [exact Hx |].
    rewrite join_cons, !noneOf_app, Hx, Hsep, IH. reflexivity.
Qed.

Lemma join_nonEmpty (sep : string) (parts : list string) :
  parts <> [] -> Forall (fun x => x <> "") parts ->
  nonEmpty (JS.join sep parts) = true.
Proof.
  intros Hne Hparts. destruct Hparts as [|x rest Hx Hrest]; [contradiction |].
  destruct x as [|c x]; [contradiction |].
  destruct rest; reflexivity.
Qed.

(** Taking the colons out of a colon-joined list gives the pieces back. *)
Lemma strip_join (parts : list string) :
  Forall (fun x => noneOf isColon x = true) parts ->
  JS.replaceClass isColon "" (JS.join ":" parts) = String.concat "" parts.
Proof.
  intros Hparts. induction Hparts as [|x rest Hx Hrest IH].
  - reflexivity.
  - destruct rest as [|y rest].
    + simpl. now apply replaceClass_id.
    + rewrite join_cons, !replaceClass_app, IH, (replaceClass_id _ _ Hx).
      reflexivity.
Qed.

Lemma joinPairsOr_pairs (fallback cleaned : string) :
  noneOf JS.isLineTerminator cleaned = true -> cleaned <> "" ->
  joinPairsOr fallback cleaned = JS.join ":" (pairsOf cleaned).
Proof.
  intros Hlt Hne. unfold joinPairsOr. rewrite (matchPairs_pairsOf _ Hlt).
  destruct (pairsOf cleaned) as [|x rest] eqn:E.
  - now apply pairsOf_nil in E.
  - rewrite <- E, join_nonEmpty; [reflexivity | now rewrite E |].
    apply pairsOf_nonEmpty.
Qed.


(** ** Serial number *)

Lemma formatSerialNumber_pairs (serial : string) :
  noneOf JS.isLineTerminator serial = true ->
  JS.replaceClass isColon "" serial <> "" ->
  formatSerialNumber serial
  = JS.join ":" (pairsOf (JS.replaceClass isColon "" serial)).
Proof.
  intros Hlt Hne. unfold formatSerialNumber.
  apply joinPairsOr_pairs; [now apply replaceClass_keeps | exact Hne].
Qed.

Lemma strip_formatted (t : string) :
  noneOf isColon t = true ->
  JS.replaceClass isColon "" (JS.join ":" (pairsOf t)) = t.
Proof.
  intros Ht. rewrite strip_join; [apply concat_pairsOf |].
  now apply pairsOf_noneOf.
Qed.

Lemma formatted_no_lineTerminator (t : string) :
  noneOf JS.isLineTerminator t = true ->
  noneOf JS.isLineTerminator (JS.join ":" (pairsOf t)) = true.
Proof.
  intros Ht. apply join_noneOf; [reflexivity | now apply pairsOf_noneOf].
Qed.

(** C8.  The serial number formatter takes the colons out and puts one
    back after every two characters: 1A2B3C becomes 1A:2B:3C, a serial that
    already has colons comes out in the same grouping as the serial without
    them, and formatting a formatted serial changes nothing. *)
Theorem formatSerialNumber_grouping :
  formatSerialNumber "1A2B3C" = "1A:2B:3C"
  /\ formatSerialNumber "1A:2B:3C" = "1A:2B:3C"
  /\ formatSerialNumber "1:A2B:3C" = "1A:2B:3C"
  /\ forall serial,
       noneOf JS.isLineTerminator serial = true ->
       let stripped := JS.replaceClass isColon "" serial in
       noneOf isColon stripped = true
       /\ (stripped <> "" ->
           formatSerialNumber serial = JS.join ":" (pairsOf stripped)
           /\ formatSerialNumber serial = formatSerialNumber stripped)
       /\ formatSerialNumber (formatSerialNumber serial)
          = formatSerialNumber serial.
Proof.
  split; [reflexivity |]. split; [reflexivity |]. split; [reflexivity |].
  intros serial Hlt stripped.
  assert (Hclean : noneOf isColon stripped = true)
    by apply replaceClass_clean.
  assert (Hlt' : noneOf JS.isLineTerminator stripped = true)
    by now apply replaceClass_keeps.
  split; [exact Hclean |]. split.
  - intros Hne. split.
    + now apply formatSerialNumber_pairs.
    + rewrite (formatSerialNumber_pairs serial Hlt Hne).
      rewrite (formatSerialNumber_pairs stripped Hlt');
        rewrite (replaceClass_id _ _ Hclean); [reflexivity | exact Hne].
  - destruct (String.eqb_spec stripped "") as [He | Hne].
    + assert (Hfix : formatSerialNumber serial = serial).
      { unfold formatSerialNumber. fold stripped. now rewrite He. }
      now rewrite !Hfix.
    + rewrite (formatSerialNumber_pairs serial Hlt Hne). fold stripped.
      rewrite formatSerialNumber_pairs.
      * now rewrite (strip_formatted stripped Hclean).
      * now apply formatted_no_lineTerminator.
      * now rewrite (strip_formatted stripped Hclean).
Qed.

Lemma formatSerialNumber_grouping_witness :
  formatSerialNumber "1a:2b3c" = JS.join ":" (pairsOf "1a2b3c")
  /\ formatSerialNumber (formatSerialNumber "1a:2b3c")
     = formatSerialNumber "1a:2b3c".
Proof.
  destruct formatSerialNumber_grouping as (_ & _ & _ & Hall).
  destruct (Hall "1a:2b3c" eq_refl) as (_ & Hpairs & Hidem).
  split; [| exact Hidem].
  apply Hpairs. discriminate.
Defined.

(** ** Radix renderings *)












(** ** Reading a decimal rendering back *)






(** ** Modulus *)














(** ** RSA key rendering *)






(** * Further properties of the parser and of its callers *)

(** ** What the decoder is given *)

Lemma replaceLiteral_from_skip (q pat rep rest : string) :
  JS.replaceLiteral_from (String.length q) pat rep (q ++ rest)
  = JS.replaceLiteral_from O pat rep rest.
Proof.
  induction q as [|c q IH]; [reflexivity | exact IH].
Qed.

Lemma replaceLiteral_same_bounded (pat : string) (n : nat) (s : string) :
  pat <> "" -> (String.length s <= n)%nat ->
  JS.replaceLiteral_from O pat pat s = s.
Proof.
  intros Hpat. revert s. induction n as [|n IH]; intros s Hlen.
  - destruct s; [reflexivity | simpl in Hlen; lia].
  - destruct s as [|c s]; [reflexivity |].
    cbn [JS.replaceLiteral_from].
    destruct (JS.startsWith pat (String c s)) eqn:Hs.
    + destruct (startsWith_split _ _ Hs) as [rest Hrest].
      destruct pat as [|a pat']; [contradiction |].
      simpl in Hrest. injection Hrest as <- ->.
      cbn [String.length]. rewrite Nat.sub_succ, Nat.sub_0_r.
      rewrite replaceLiteral_from_skip, IH.
      * reflexivity.
      * simpl in Hlen. rewrite length_app in Hlen. lia.
    + rewrite IH; [reflexivity | simpl in Hlen; lia].
Qed.

Lemma replaceLiteral_same (pat s : string) :
  pat <> "" -> JS.replaceLiteral pat pat s = s.
Proof.
  intros Hpat. apply (replaceLiteral_same_bounded pat (String.length s)); auto.
Qed.

(** X1.  The two replacements that clean the text change nothing: the
    decoder is given the trimmed text, the same text the format validator
    looks at. *)
Theorem cleanCertText_is_trim (certText : string) :
  cleanCertText certText = JS.trim certText.
Proof.
  unfold cleanCertText.
  rewrite !replaceLiteral_same by discriminate. reflexivity.
Qed.

(** ** How a parse ends *)

Lemma publicKeyInfo_with_key (H : Host) (cert : Certificate) (pk : PublicKey)
      (w : World) :
  cert_publicKey cert = Some pk ->
  exists pki, publicKeyInfo H cert w = Returned pki.
Proof.
  intros Hpk. unfold publicKeyInfo. rewrite Hpk.
  destruct (pk_n pk), (pk_e pk); eexists; reflexivity.
Qed.

Lemma publicKeyInfo_without_key (H : Host) (cert : Certificate) (w : World) :
  cert_publicKey cert = None ->
  publicKeyInfo H cert w = Threw (ThrownError (typeErrorReading H "n")).
Proof.
  intros Hpk. unfold publicKeyInfo. now rewrite Hpk.
Qed.

(** The two ways a parse can throw, and the one way it returns. *)
Lemma parseCertificate_cases (H : Host) (certText : string) (w : World) :
  (exists e, certificateFromPem H (cleanCertText certText) = inl e
             /\ parseCertificate H certText w
                = Threw (ThrownError ("Failed to parse certificate: "
                                      ++ errorMessage e)))
  \/ (exists cert, certificateFromPem H (cleanCertText certText) = inr cert
                   /\ cert_publicKey cert = None
                   /\ parseCertificate H certText w
                      = Threw (ThrownError ("Failed to parse certificate: "
                                            ++ typeErrorReading H "n")))
  \/ (exists cert info, certificateFromPem H (cleanCertText certText) = inr cert
                        /\ cert_publicKey cert <> None
                        /\ parseCertificate H certText w = Returned info).
Proof.
  unfold parseCertificate, parseCertificateWithForge, tryCatch, parseBody,
    bind, call, Date_now, throw, ret.
  destruct (certificateFromPem H (cleanCertText certText)) as [e | cert].
  - left. exists e. now split.
  - right. destruct (cert_publicKey cert) as [pk |] eqn:Hpk.
    + right. destruct (publicKeyInfo_with_key H cert pk w Hpk) as [pki Hpki].
      rewrite Hpki. eexists cert, _. split; [reflexivity |].
      split; [rewrite Hpk; discriminate | reflexivity].
    + left. rewrite (publicKeyInfo_without_key H cert w Hpk).
      exists cert. now repeat split.
Qed.

(** X2.  A parse throws nothing but an [Error] whose message starts with
    "Failed to parse certificate: ": the decoder's own message follows the
    prefix, and "Unknown error" when the decoder threw something that is not
    an [Error].  It returns a result exactly when the decoder returns a
    certificate that has a public key. *)
Theorem parseCertificate_outcomes (H : Host) (certText : string) (w : World) :
  (forall e, parseCertificate H certText w = Threw e ->
     exists m, e = ThrownError ("Failed to parse certificate: " ++ m))
  /\ (forall m, certificateFromPem H (JS.trim certText) = inl (ThrownError m) ->
        parseCertificate H certText w
        = Threw (ThrownError ("Failed to parse certificate: " ++ m)))
  /\ (certificateFromPem H (JS.trim certText) = inl ThrownOther ->
        parseCertificate H certText w
        = Threw (ThrownError "Failed to parse certificate: Unknown error"))
  /\ ((exists info, parseCertificate H certText w = Returned info) <->
      (exists cert, certificateFromPem H (JS.trim certText) = inr cert
                    /\ cert_publicKey cert <> None)).
Proof.
  rewrite <- cleanCertText_is_trim.
  destruct (parseCertificate_cases H certText w)
    as [(e0 & Hd & Hp) | [(cert & Hd & Hk & Hp) | (cert & info & Hd & Hk & Hp)]];
    rewrite Hd, Hp.
  - split; [| split; [| split; [| split]]].
    + intros e He. injection He as <-. eexists. reflexivity.
    + intros m Hm. now injection Hm as ->.
    + intros Hm. now injection Hm as ->.
    + intros [info Hinfo]. discriminate.
    + intros (cert & Hc & _). discriminate.
  - split; [| split; [| split; [| split]]]; try discriminate.
    + intros e He. injection He as <-. eexists. reflexivity.
    + intros [info Hinfo]. discriminate.
    + intros (c & Hc & Hk'). injection Hc as <-. contradiction.
  - split; [| split; [| split; [| split]]]; try discriminate.
    + intros _. now exists cert.
    + intros _. now exists info.
Qed.

Lemma parseCertificate_outcomes_witness :
  parseCertificate sampleHost "not a certificate" (worldAt (dateOfUTC 2025 1 1 0 0 0 0))
  = Threw (ThrownError "Failed to parse certificate: Invalid PEM formatted message.")
  /\ exists info,
       parseCertificate sampleHost samplePem (worldAt (dateOfUTC 2025 1 1 0 0 0 0))
       = Returned info.
Proof.
  split.
  - apply (proj1 (proj2 (parseCertificate_outcomes sampleHost "not a certificate"
                           (worldAt (dateOfUTC 2025 1 1 0 0 0 0))))).
    reflexivity.
  - apply (proj2 (proj2 (proj2 (proj2 (parseCertificate_outcomes sampleHost samplePem
                           (worldAt (dateOfUTC 2025 1 1 0 0 0 0))))))).
    exists sampleCertificate. split; [reflexivity | discriminate].
Defined.

(** ** What the format validator lets through *)

Lemma trimStart_skips (l x : string) :
  noneOf notWhiteSpace l = true -> JS.trimStart (l ++ x) = JS.trimStart x.
Proof.
  induction l as [|c l IH]; intros Hl; [reflexivity |].
  simpl in Hl. apply andb_true_iff in Hl as [Hc Hl].
  unfold notWhiteSpace in Hc. rewrite negb_involutive in Hc.
  simpl. now rewrite Hc, IH.
Qed.

Lemma trimEnd_blank (r : string) :
  noneOf notWhiteSpace r = true -> JS.trimEnd r = "".
Proof.
  induction r as [|c r IH]; intros Hr; [reflexivity |].
  simpl in Hr. apply andb_true_iff in Hr as [Hc Hr].
  unfold notWhiteSpace in Hc. rewrite negb_involutive in Hc.
  simpl. now rewrite IH, Hc.
Qed.

Lemma trimEnd_skips (a b : string) :
  JS.trimEnd b = "" -> JS.trimEnd (a ++ b) = JS.trimEnd a.
Proof.
  intros Hb. induction a as [|c a IH]; [exact Hb |].
  simpl. now rewrite IH.
Qed.

Lemma trimEnd_keeps (t : string) (c : ascii) :
  JS.isWhiteSpace c = false ->
  JS.trimEnd (t ++ String c "") = t ++ String c "".
Proof.
  intros Hc. induction t as [|a t IH].
  - simpl. now rewrite Hc.
  - simpl. rewrite IH. now destruct t.
Qed.

(** A text that starts and ends with something other than white space is
    what [trim] leaves of it, whatever white space is put around it. *)
Lemma trim_core (l r t : string) (c d : ascii) :
  noneOf notWhiteSpace l = true -> noneOf notWhiteSpace r = true ->
  JS.isWhiteSpace c = false -> JS.isWhiteSpace d = false ->
  JS.trim (l ++ String c (t ++ String d "") ++ r) = String c (t ++ String d "").
Proof.
  intros Hl Hr Hc Hd. unfold JS.trim.
  rewrite trimStart_skips by exact Hl.
  cbn [append JS.trimStart]. rewrite Hc.
  change (String c ((t ++ String d "") ++ r))
    with (String c (t ++ String d "") ++ r).
  rewrite trimEnd_skips by now apply trimEnd_blank.
  change (String c (t ++ String d "")) with ((String c t) ++ String d "").
  now apply trimEnd_keeps.
Qed.

(** X3.  The format validator accepts every text made of the begin marker,
    anything at all, and the end marker, with any white space around: it
    does not look at what lies between the markers.  The two markers may
    even share their dashes. *)
Theorem validateCertificateFormat_accepts (l body r : string) :
  noneOf notWhiteSpace l = true ->
  noneOf notWhiteSpace r = true ->
  JS.trim (l ++ ("-----BEGIN CERTIFICATE-----" ++ body
                 ++ "-----END CERTIFICATE-----") ++ r)
  = "-----BEGIN CERTIFICATE-----" ++ body ++ "-----END CERTIFICATE-----"
  /\ validateCertificateFormat
       (l ++ ("-----BEGIN CERTIFICATE-----" ++ body
              ++ "-----END CERTIFICATE-----") ++ r) = true
  /\ validateCertificateFormat
       "-----BEGIN CERTIFICATE-----END CERTIFICATE-----" = true.
Proof.
  intros Hl Hr.
  assert (Htrim :
            JS.trim (l ++ ("-----BEGIN CERTIFICATE-----" ++ body
                           ++ "-----END CERTIFICATE-----") ++ r)
            = "-----BEGIN CERTIFICATE-----" ++ body ++ "-----END CERTIFICATE-----").
  { change ("-----BEGIN CERTIFICATE-----" ++ body ++ "-----END CERTIFICATE-----")
      with (String "-" ("----BEGIN CERTIFICATE-----" ++ body
                        ++ "-----END CERTIFICATE----" ++ String "-" "")).
    rewrite <- (app_assoc_s body), <- (app_assoc_s "----BEGIN CERTIFICATE-----").
    now apply trim_core. }
  split; [exact Htrim |]. split; [| reflexivity].
  rewrite validate_unfold, Htrim. apply andb_true_iff. split.
  - apply startsWith_app.
  - apply endsWith_iff. exists ("-----BEGIN CERTIFICATE-----" ++ body).
    now rewrite app_assoc_s.
Qed.

Lemma validateCertificateFormat_accepts_witness :
  validateCertificateFormat
    (NL ++ ("-----BEGIN CERTIFICATE-----" ++ "not base64 at all"
            ++ "-----END CERTIFICATE-----") ++ "  ") = true.
Proof.
  apply (validateCertificateFormat_accepts NL "not base64 at all" "  ");
    reflexivity.
Defined.

(** ** Validity status *)

Lemma evaluateValidity_exclusive (nb na now : Date) :
  isExpired (evaluateValidity nb na now)
  && isExpiringSoon (evaluateValidity nb na now) = false.
Proof.
  destruct na as [|a], now as [|n]; simpl; try reflexivity.
  destruct (Z.ltb_spec a n) as [Hlt | Hge]; [| reflexivity].
  destruct (Z.ltb_spec n a) as [Hgt | Hle]; [lia |].
  now rewrite andb_false_r.
Qed.

(** X4.  The status shown for a parsed certificate, with [now] what the
    wall clock read and notAfter the end of validity of the decoded
    certificate: "Expired" exactly when notAfter < now, "Expiring Soon"
    exactly when now < notAfter < now + 30 days, and "Valid" otherwise,
    which includes notAfter = now and a notAfter that is an invalid date.
    The two flags are never set together. *)
Theorem getValidityStatus_of_parse (H : Host) (certText : string) (w : World)
        (info : CertificateInfo) (cert : Certificate) :
  parseCertificate H certText w = Returned info ->
  certificateFromPem H (cleanCertText certText) = inr cert ->
  Z.abs (wallClock w + THIRTY_DAYS) <= MAX_TIME ->
  let now := wallClock w in
  let text := status_text (getValidityStatus info) in
  isExpired (validity info) && isExpiringSoon (validity info) = false
  /\ notAfter (validity info) = cert_notAfter cert
  /\ (cert_notAfter cert = InvalidDate -> text = "Valid")
  /\ (forall na, cert_notAfter cert = Instant na ->
        (text = "Expired" <-> na < now)
        /\ (text = "Expiring Soon" <-> now < na < now + THIRTY_DAYS)
        /\ (text = "Valid" <-> na = now \/ now + THIRTY_DAYS <= na)).
Proof.
  intros Hret Hdec Hrange now text.
  apply parseCertificate_returned in Hret as (cert' & pki & Hd & _ & ->).
  rewrite Hd in Hdec. injection Hdec as ->.
  subst text. unfold getValidityStatus. cbn [validity].
  split; [apply evaluateValidity_exclusive |].
  split; [reflexivity |]. split.
  - intros ->. reflexivity.
  - intros na ->.
    destruct (evaluateValidity_flags (cert_notBefore cert) na now Hrange)
      as [Hexp Hsoon].
    fold now in Hexp, Hsoon. clear Hrange.
    assert (Hpos : 0 < THIRTY_DAYS) by reflexivity.
    destruct (isExpired _) eqn:He; [| destruct (isExpiringSoon _) eqn:Hs];
      cbn [status_text].
    + assert (na < now) by now apply Hexp.
      repeat split; intros; try reflexivity; try discriminate; lia.
    + assert (now < na < now + THIRTY_DAYS) by now apply Hsoon.
      repeat split; intros; try reflexivity; try discriminate; lia.
    + assert (~ na < now) by (intros Hlt; apply Hexp in Hlt; discriminate).
      assert (~ now < na < now + THIRTY_DAYS)
        by (intros Hlt; apply Hsoon in Hlt; discriminate).
      repeat split; intros; try reflexivity; try discriminate; lia.
Qed.

Lemma getValidityStatus_of_parse_witness :
  (exists info,
     parseCertificate (hostDecoding caCertificate) samplePem
       (worldAt (dateOfUTC 2025 1 1 0 0 0 0)) = Returned info
     /\ status_text (getValidityStatus info) = "Valid")
  /\ (exists info,
        parseCertificate sampleHost samplePem
          (worldAt (dateOfUTC 2025 7 1 0 0 0 0)) = Returned info
        /\ status_text (getValidityStatus info) = "Expired").
Proof.
  assert (Hrange : forall d,
             d = dateOfUTC 2025 1 1 0 0 0 0 \/ d = dateOfUTC 2025 7 1 0 0 0 0 ->
             Z.abs (wallClock (worldAt d) + THIRTY_DAYS) <= MAX_TIME).
  { intros d [-> | ->]; vm_compute; intros E; discriminate E. }
  split.
  - destruct (parseCertificate (hostDecoding caCertificate) samplePem
                (worldAt (dateOfUTC 2025 1 1 0 0 0 0))) as [info | e] eqn:Hp;
      [| vm_compute in Hp; discriminate Hp].
    exists info. split; [reflexivity |].
    destruct (getValidityStatus_of_parse (hostDecoding caCertificate) samplePem
                _ info caCertificate Hp eq_refl (Hrange _ (or_introl eq_refl)))
      as (_ & _ & Hinvalid & _).
    apply Hinvalid. reflexivity.
  - destruct (parseCertificate sampleHost samplePem
                (worldAt (dateOfUTC 2025 7 1 0 0 0 0))) as [info | e] eqn:Hp;
      [| vm_compute in Hp; discriminate Hp].
    exists info. split; [reflexivity |].
    destruct (getValidityStatus_of_parse sampleHost samplePem
                _ info sampleCertificate Hp eq_refl (Hrange _ (or_intror eq_refl)))
      as (_ & _ & _ & Hvalid).
    destruct (Hvalid 1748736000000 eq_refl) as (Hexpired & _).
    apply Hexpired. vm_compute. reflexivity.
Defined.

(** ** Key Usage flags *)

Lemma charCodeAt_some (s : string) (i : nat) (b : Z) :
  JS.charCodeAt s i = Some b ->
  (i < String.length s)%nat /\ exists c, b = JS.code c.
Proof.
  revert i. induction s as [|a s IH]; intros i Hb; [discriminate |].
  destruct i as [|i]; simpl in Hb.
  - injection Hb as <-. split; [simpl; lia | now exists a].
  - destruct (IH i Hb) as [Hlt Hc]. split; [simpl; lia | exact Hc].
Qed.

Lemma bits_of_code (c : ascii) :
  JS.code c
  = 128 * Z.b2z (bitSet (JS.code c) 128) + 64 * Z.b2z (bitSet (JS.code c) 64)
    + 32 * Z.b2z (bitSet (JS.code c) 32) + 16 * Z.b2z (bitSet (JS.code c) 16)
    + 8 * Z.b2z (bitSet (JS.code c) 8) + 4 * Z.b2z (bitSet (JS.code c) 4)
    + 2 * Z.b2z (bitSet (JS.code c) 2) + Z.b2z (bitSet (JS.code c) 1).
Proof.
  destruct c as [[] [] [] [] [] [] [] []]; reflexivity.
Qed.

(** X5.  When the raw Key Usage value has a fourth code unit, the eight
    flags are its eight bits, most significant first: the code unit can be
    read back from the flags.  decipherOnly is not set. *)
Theorem parseKeyUsageExtension_bits (value : ExtValue) (b : Z) :
  JS.charCodeAt (stringOfValue value) 3 = Some b ->
  let f := parseKeyUsageExtension value in
  b = 128 * Z.b2z (digitalSignature f) + 64 * Z.b2z (nonRepudiation f)
      + 32 * Z.b2z (keyEncipherment f) + 16 * Z.b2z (dataEncipherment f)
      + 8 * Z.b2z (keyAgreement f) + 4 * Z.b2z (keyCertSign f)
      + 2 * Z.b2z (cRLSign f) + Z.b2z (encipherOnly f)
  /\ decipherOnly f = false.
Proof.
  intros Hb f. subst f. unfold parseKeyUsageExtension.
  destruct (charCodeAt_some _ _ _ Hb) as [Hlen [c ->]].
  destruct (Nat.leb_spec 4 (String.length (stringOfValue value))); [| lia].
  rewrite Hb. cbn [toInt32 digitalSignature nonRepudiation keyEncipherment
                   dataEncipherment keyAgreement keyCertSign cRLSign
                   encipherOnly decipherOnly].
  split; [apply bits_of_code | reflexivity].
Qed.

Lemma parseKeyUsageExtension_bits_witness :
  let f := parseKeyUsageExtension (ExtString (bytes [3; 2; 1; 6])) in
  6 = 128 * Z.b2z (digitalSignature f) + 64 * Z.b2z (nonRepudiation f)
      + 32 * Z.b2z (keyEncipherment f) + 16 * Z.b2z (dataEncipherment f)
      + 8 * Z.b2z (keyAgreement f) + 4 * Z.b2z (keyCertSign f)
      + 2 * Z.b2z (cRLSign f) + Z.b2z (encipherOnly f)
  /\ decipherOnly f = false.
Proof.
  apply (parseKeyUsageExtension_bits (ExtString (bytes [3; 2; 1; 6])) 6).
  reflexivity.
Defined.

Lemma pushIf_in (flag : bool) (label x : string) :
  In x (pushIf flag label) -> flag = true /\ x = label.
Proof.
  destruct flag; simpl; [intros [<- | []]; now split | intros []].
Qed.

Lemma pushIf_length (flag : bool) (label : string) :
  (List.length (pushIf flag label) <= 1)%nat.
Proof. destruct flag; simpl; lia. Qed.

Lemma decipherOnly_never (value : ExtValue) :
  decipherOnly (parseKeyUsageExtension value) = false.
Proof.
  unfold parseKeyUsageExtension. now destruct (4 <=? _)%nat.
Qed.

Lemma keyUsageLabels_shape (f : KeyUsageFlags) :
  decipherOnly f = false ->
  (List.length (keyUsageLabels f) <= 8)%nat
  /\ ~ In "Decipher Only" (keyUsageLabels f).
Proof.
  intros Hd. unfold keyUsageLabels. rewrite Hd. split.
  - rewrite !List.length_app.
    pose proof (pushIf_length (digitalSignature f) "Digital Signature").
    pose proof (pushIf_length (nonRepudiation f) "Non Repudiation").
    pose proof (pushIf_length (keyEncipherment f) "Key Encipherment").
    pose proof (pushIf_length (dataEncipherment f) "Data Encipherment").
    pose proof (pushIf_length (keyAgreement f) "Key Agreement").
    pose proof (pushIf_length (keyCertSign f) "Key Cert Sign").
    pose proof (pushIf_length (cRLSign f) "CRL Sign").
    pose proof (pushIf_length (encipherOnly f) "Encipher Only").
    simpl List.length. lia.
  - intros Hin.
    repeat (apply in_app_or in Hin as [Hin | Hin];
            [apply pushIf_in in Hin as [_ Hin]; discriminate Hin |]).
    destruct Hin.
Qed.

(** X6.  The keyUsage field of a result is absent exactly when the
    certificate has no extension named keyUsage or the first such extension
    has a falsy value.  When it is there, it is at most eight flag names,
    never "Decipher Only", followed by the three echo lines of that
    extension's raw value. *)
Theorem keyUsage_of_parse (H : Host) (certText : string) (w : World)
        (info : CertificateInfo) :
  parseCertificate H certText w = Returned info ->
  exists cert,
    certificateFromPem H (JS.trim certText) = inr cert
    /\ (keyUsage info = None <->
        match find_ext (nameIs "keyUsage") (cert_extensions cert) with
        | Some ext => truthyValue (ext_value ext) = false
        | None => True
        end)
    /\ (forall l, keyUsage info = Some l ->
          exists ext labels,
            find_ext (nameIs "keyUsage") (cert_extensions cert) = Some ext
            /\ l = (labels ++ rawEchoLines (stringOfValue (ext_value ext)))%list
            /\ (List.length labels <= 8)%nat
            /\ ~ In "Decipher Only" l).
Proof.
  intros Hret.
  apply parseCertificate_returned in Hret as (cert & pki & Hd & _ & ->).
  rewrite cleanCertText_is_trim in Hd.
  exists cert. split; [exact Hd |]. cbn [keyUsage]. unfold keyUsageOf.
  destruct (find_ext (nameIs "keyUsage") (cert_extensions cert)) as [ext |].
  - destruct (truthyValue (ext_value ext)) eqn:Ht.
    + destruct (keyUsageLabels_shape (parseKeyUsageExtension (ext_value ext))
                  (decipherOnly_never _)) as [Hlen Hnot].
      split.
      * split; [| discriminate].
        destruct (keyUsageLabels _); discriminate.
      * intros l Hl.
        exists ext, (keyUsageLabels (parseKeyUsageExtension (ext_value ext))).
        assert (Heq : l = (keyUsageLabels (parseKeyUsageExtension (ext_value ext))
                           ++ rawEchoLines (stringOfValue (ext_value ext)))%list).
        { destruct (keyUsageLabels _); simpl in Hl; now injection Hl as <-. }
        repeat split; auto.
        rewrite Heq. intros Hin. apply in_app_or in Hin as [Hin | Hin];
          [now apply Hnot |].
        simpl in Hin. destruct Hin as [E | [E | [E | []]]]; discriminate E.
    + split; [now split | discriminate].
  - split; [now split | discriminate].
Qed.

Lemma keyUsage_of_parse_witness :
  exists info l,
    parseCertificate sampleHost samplePem (worldAt (dateOfUTC 2025 1 1 0 0 0 0))
    = Returned info
    /\ keyUsage info = Some l
    /\ ~ In "Decipher Only" l.
Proof.
  destruct (parseCertificate sampleHost samplePem
              (worldAt (dateOfUTC 2025 1 1 0 0 0 0))) as [info | e] eqn:Hp;
    [| vm_compute in Hp; discriminate Hp].
  destruct (keyUsage_of_parse _ _ _ _ Hp) as (cert & _ & _ & Hsome).
  destruct (keyUsage info) as [l |] eqn:Hl.
  - exists info, l. split; [reflexivity |]. split; [exact Hl |].
    destruct (Hsome l eq_refl) as (ext & labels & _ & _ & _ & Hnot). exact Hnot.
  - vm_compute in Hp. injection Hp as <-. discriminate Hl.
Defined.

(** ** Basic Constraints and Extended Key Usage *)

Lemma parseBasicConstraintsExtension_fields (value : ExtValue) :
  parseBasicConstraintsExtension value
  = {| isCA := false;
       pathLength := None;
       rawData := Some {| binary := stringOfValue value;
                          hex := hexEcho (stringOfValue value);
                          binaryString := binaryEcho (stringOfValue value) |} |}.
Proof.
  unfold parseBasicConstraintsExtension.
  destruct (2 <=? String.length (stringOfValue value))%nat; [| reflexivity].
  destruct (JS.charCodeAt (stringOfValue value) 1) as [[| p | p] |];
    reflexivity.
Qed.

(** X7.  The basicConstraints field of a result is there exactly when the
    certificate has an extension named basicConstraints.  Whatever that
    extension holds, also the encoding of CA:TRUE with a path length, the
    field says isCA = false and gives no path length; it echoes the raw
    value. *)
Theorem basicConstraints_of_parse (H : Host) (certText : string) (w : World)
        (info : CertificateInfo) :
  parseCertificate H certText w = Returned info ->
  exists cert,
    certificateFromPem H (JS.trim certText) = inr cert
    /\ (basicConstraints info = None <->
        find_ext (nameIs "basicConstraints") (cert_extensions cert) = None)
    /\ (forall bc, basicConstraints info = Some bc ->
          isCA bc = false
          /\ pathLength bc = None
          /\ exists ext,
               find_ext (nameIs "basicConstraints") (cert_extensions cert)
               = Some ext
               /\ rawData bc
                  = Some {| binary := stringOfValue (ext_value ext);
                            hex := hexEcho (stringOfValue (ext_value ext));
                            binaryString :=
                              binaryEcho (stringOfValue (ext_value ext)) |}).
Proof.
  intros Hret.
  apply parseCertificate_returned in Hret as (cert & pki & Hd & _ & ->).
  rewrite cleanCertText_is_trim in Hd.
  exists cert. split; [exact Hd |]. cbn [basicConstraints].
  destruct (find_ext (nameIs "basicConstraints") (cert_extensions cert))
    as [ext |].
  - split; [split; discriminate |].
    intros bc Hbc. injection Hbc as <-.
    rewrite parseBasicConstraintsExtension_fields. cbn [isCA pathLength rawData].
    repeat split. now exists ext.
  - split; [now split | discriminate].
Qed.

Lemma basicConstraints_of_parse_witness :
  exists info bc,
    parseCertificate (hostDecoding caCertificate) samplePem
      (worldAt (dateOfUTC 2025 1 1 0 0 0 0)) = Returned info
    /\ basicConstraints info = Some bc
    /\ isCA bc = false.
Proof.
  destruct (parseCertificate (hostDecoding caCertificate) samplePem
              (worldAt (dateOfUTC 2025 1 1 0 0 0 0))) as [info | e] eqn:Hp;
    [| vm_compute in Hp; discriminate Hp].
  destruct (basicConstraints_of_parse _ _ _ _ Hp) as (cert & _ & _ & Hsome).
  destruct (basicConstraints info) as [bc |] eqn:Hbc.
  - exists info, bc. split; [reflexivity |]. split; [exact Hbc |].
    apply (Hsome bc eq_refl).
  - vm_compute in Hp. injection Hp as <-. discriminate Hbc.
Defined.

(** X8.  When the extendedKeyUsage field of a result is there, it is
    "TLS Web Server Authentication" and "TLS Web Client Authentication"
    followed by the three echo lines of the raw value, whatever purposes
    the extension lists. *)
Theorem extendedKeyUsage_of_parse (H : Host) (certText : string) (w : World)
        (info : CertificateInfo) (l : list string) :
  parseCertificate H certText w = Returned info ->
  extendedKeyUsage info = Some l ->
  exists cert ext,
    certificateFromPem H (JS.trim certText) = inr cert
    /\ find_ext (nameIs "extKeyUsage") (cert_extensions cert) = Some ext
    /\ truthyValue (ext_value ext) = true
    /\ l = [ "TLS Web Server Authentication";
             "TLS Web Client Authentication";
             "Raw Binary: " ++ stringOfValue (ext_value ext);
             "Hex: " ++ hexEcho (stringOfValue (ext_value ext));
             "Binary: " ++ binaryEcho (stringOfValue (ext_value ext)) ].
Proof.
  intros Hret Hl.
  apply parseCertificate_returned in Hret as (cert & pki & Hd & _ & ->).
  rewrite cleanCertText_is_trim in Hd.
  cbn [extendedKeyUsage] in Hl. unfold extendedKeyUsageOf in Hl.
  destruct (find_ext (nameIs "extKeyUsage") (cert_extensions cert))
    as [ext |] eqn:Hf; [| discriminate].
  destruct (truthyValue (ext_value ext)) eqn:Ht; [| discriminate].
  injection Hl as <-. exists cert, ext. now repeat split.
Qed.

Lemma extendedKeyUsage_of_parse_witness :
  exists info l,
    parseCertificate (hostDecoding caCertificate) samplePem
      (worldAt (dateOfUTC 2025 1 1 0 0 0 0)) = Returned info
    /\ extendedKeyUsage info = Some l
    /\ nth 0 l "" = "TLS Web Server Authentication".
Proof.
  destruct (parseCertificate (hostDecoding caCertificate) samplePem
              (worldAt (dateOfUTC 2025 1 1 0 0 0 0))) as [info | e] eqn:Hp;
    [| vm_compute in Hp; discriminate Hp].
  destruct (extendedKeyUsage info) as [l |] eqn:Hl.
  - exists info, l. split; [reflexivity |]. split; [exact Hl |].
    destruct (extendedKeyUsage_of_parse _ _ _ _ _ Hp Hl)
      as (cert & ext & _ & _ & _ & ->).
    reflexivity.
  - vm_compute in Hp. injection Hp as <-. discriminate Hl.
Defined.

(** ** Which extension is taken for the SCT list *)

Lemma includes_sct_ct (s : string) :
  JS.includes "sct" s = true -> JS.includes "ct" s = true.
Proof.
  intros Hs. apply includes_iff in Hs as (a & b & ->).
  apply includes_iff. exists (a ++ "s"), b.
  now rewrite app_assoc_s.
Qed.

Lemma find_ext_none (p : Extension -> bool) (exts : list Extension) :
  find_ext p exts = None <-> Forall (fun e => p e = false) exts.
Proof.
  induction exts as [|e exts IH]; simpl.
  - split; [constructor | reflexivity].
  - destruct (p e) eqn:Hp.
    + split; [discriminate |]. intros Hall.
      inversion Hall as [|? ? He _]; subst. congruence.
    + rewrite IH. split.
      * intros Hall. now constructor.
      * intros Hall. now inversion Hall.
Qed.

(** X9.  An extension is taken for the SCT list when its name is
    signedCertificateTimestampList, one of the two OIDs, or holds "ct" or
    "transparency" in any letter case; the tests for ctPrecertificateSCTs
    and for "sct" add nothing.  So a certificate gets the
    certificateTransparency field as soon as one of its extensions has "ct"
    in its name, as subjectAltName and subjectKeyIdentifier have, and
    node-forge's own name for the SCT list, timestampList, is not
    recognised. *)
Theorem certificateTransparency_detection (cert : Certificate) :
  (forall e n, ext_name e = Some n ->
     isCtExtension e
     = String.eqb n "signedCertificateTimestampList"
       || String.eqb n "1.3.6.1.4.1.11129.2.4.2"
       || String.eqb n "1.3.6.1.4.1.11129.2.4.5"
       || JS.includes "ct" (JS.toLowerCase n)
       || JS.includes "transparency" (JS.toLowerCase n))
  /\ (certificateTransparencyOf cert = None <->
      Forall (fun e => isCtExtension e = false) (cert_extensions cert))
  /\ (forall e n, In e (cert_extensions cert) -> ext_name e = Some n ->
        JS.includes "ct" (JS.toLowerCase n) = true ->
        certificateTransparencyOf cert = Some {| scts := fixedSCTs |})
  /\ (forall v c,
        isCtExtension {| ext_name := Some "subjectAltName";
                         ext_value := v; ext_critical := c |} = true
        /\ isCtExtension {| ext_name := Some "subjectKeyIdentifier";
                            ext_value := v; ext_critical := c |} = true
        /\ isCtExtension {| ext_name := Some "timestampList";
                            ext_value := v; ext_critical := c |} = false).
Proof.
  split; [| split; [| split]].
  - intros e n Hn. unfold isCtExtension. rewrite Hn.
    destruct (String.eqb_spec n "ctPrecertificateSCTs") as [-> | _];
      [reflexivity |].
    destruct (JS.includes "sct" (JS.toLowerCase n)) eqn:Hsct.
    + rewrite (includes_sct_ct _ Hsct).
      rewrite !orb_true_r. reflexivity.
    + rewrite !orb_false_r. reflexivity.
  - unfold certificateTransparencyOf. rewrite <- find_ext_none.
    destruct (find_ext isCtExtension (cert_extensions cert));
      split; (discriminate || reflexivity).
  - intros e n Hin Hn Hct. unfold certificateTransparencyOf.
    destruct (find_ext isCtExtension (cert_extensions cert)) as [ext |] eqn:Hf;
      [reflexivity |].
    apply find_ext_none in Hf. rewrite Forall_forall in Hf.
    specialize (Hf e Hin). unfold isCtExtension in Hf. rewrite Hn, Hct in Hf.
    rewrite !orb_true_r in Hf. simpl in Hf. discriminate Hf.
  - intros v c. repeat split.
Qed.

Lemma certificateTransparency_detection_witness :
  certificateTransparencyOf caCertificate = Some {| scts := fixedSCTs |}.
Proof.
  refine (proj1 (proj2 (proj2 (certificateTransparency_detection caCertificate)))
            {| ext_name := Some "subjectAltName";
               ext_value := ExtString (bytes [48; 13; 130; 11; 101; 120; 97; 109;
                                              112; 108; 101; 46; 99; 111; 109]);
               ext_critical := false |} "subjectAltName" _ eq_refl eq_refl).
  simpl. right. right. left. reflexivity.
Defined.

(** ** The modulus formatter on any text *)










Lemma isColonOrSpace_colon (c : ascii) :
  isColon c = true -> isColonOrSpace c = true.
Proof. unfold isColonOrSpace. now intros ->. Qed.




(** ** The serial number formatter keeps the digits *)

(** X11.  For a serial without line terminators, taking the colons out of
    the formatted serial gives the serial without its colons: the formatter
    neither drops nor adds nor reorders a digit. *)
Theorem formatSerialNumber_keeps_digits (serial : string) :
  noneOf JS.isLineTerminator serial = true ->
  JS.replaceClass isColon "" (formatSerialNumber serial)
  = JS.replaceClass isColon "" serial.
Proof.
  intros Hlt.
  destruct (String.eqb_spec (JS.replaceClass isColon "" serial) "") as [He | Hne].
  - unfold formatSerialNumber. now rewrite He.
  - rewrite (formatSerialNumber_pairs serial Hlt Hne).
    apply strip_formatted. apply replaceClass_clean.
Qed.

Lemma formatSerialNumber_keeps_digits_witness :
  JS.replaceClass isColon "" (formatSerialNumber "0:1f:a") = "01fa".
Proof.
  rewrite (formatSerialNumber_keeps_digits "0:1f:a" eq_refl). reflexivity.
Defined.

(** ** Hexadecimal renderings of raw bytes *)

Lemma byteHex_length (c : ascii) :
  String.length (byteHex (String c "")) = 2%nat.
Proof.
  destruct c as [[] [] [] [] [] [] [] []]; reflexivity.
Qed.

Lemma byteHex_lower (c : ascii) :
  noneOf isUpperLetter (byteHex (String c "")) = true.
Proof.
  destruct c as [[] [] [] [] [] [] [] []]; reflexivity.
Qed.

Lemma bytesToHex_cons (c : ascii) (s : string) :
  bytesToHex (String c s) = byteHex (String c "") ++ bytesToHex s.
Proof.
  unfold bytesToHex. cbn [JS.chars map]. apply concat_cons.
Qed.

Lemma pairsOf_two (x rest : string) :
  String.length x = 2%nat -> pairsOf (x ++ rest) = x :: pairsOf rest.
Proof.
  destruct x as [|a [|b [|c x]]]; simpl; intros Hx; try discriminate.
  reflexivity.
Qed.

Lemma pairsOf_bytesToHex (s : string) :
  pairsOf (bytesToHex s) = map byteHex (JS.chars s).
Proof.
  induction s as [|c s IH]; [reflexivity |].
  rewrite bytesToHex_cons, pairsOf_two by apply byteHex_length.
  now rewrite IH.
Qed.

Lemma toUpperCase_app (a b : string) :
  JS.toUpperCase (a ++ b) = JS.toUpperCase a ++ JS.toUpperCase b.
Proof.
  unfold JS.toUpperCase. induction a as [|c a IH]; [reflexivity |].
  simpl. now rewrite IH.
Qed.

Lemma toUpperCase_join_colon (parts : list string) :
  JS.toUpperCase (JS.join ":" parts) = JS.join ":" (map JS.toUpperCase parts).
Proof.
  induction parts as [|x rest IH]; [reflexivity |].
  destruct rest as [|y rest]; [reflexivity |].
  rewrite join_cons, !toUpperCase_app, IH. reflexivity.
Qed.

(** X12.  The hexadecimal rendering of raw bytes has two lower-case digits
    for every byte, and the "Hex:" echo of an extension is that same
    rendering cut into its pairs, joined with colons and put in upper
    case. *)
Theorem hex_renderings (raw : string) :
  String.length (bytesToHex raw) = (2 * String.length raw)%nat
  /\ noneOf isUpperLetter (bytesToHex raw) = true
  /\ hexEcho raw = JS.toUpperCase (JS.join ":" (pairsOf (bytesToHex raw))).
Proof.
  split; [| split].
  - induction raw as [|c s IH]; [reflexivity |].
    rewrite bytesToHex_cons, length_app, byteHex_length, IH. simpl. lia.
  - induction raw as [|c s IH]; [reflexivity |].
    now rewrite bytesToHex_cons, noneOf_app, byteHex_lower, IH.
  - rewrite pairsOf_bytesToHex, toUpperCase_join_colon, map_map.
    unfold hexEcho. f_equal.
    induction raw as [|c s IH]; [reflexivity |].
    cbn [JS.chars map]. now rewrite IH.
Qed.

(** ** RSA details and the algorithm name *)

Lemma size_bounds (n : N) :
  n <> 0%N ->
  2 ^ (Z.of_N (N.size n) - 1) <= Z.of_N n < 2 ^ Z.of_N (N.size n).
Proof.
  intros Hn. rewrite N.size_log2 by exact Hn.
  rewrite N2Z.inj_succ.
  replace (Z.succ (Z.of_N (N.log2 n)) - 1) with (Z.of_N (N.log2 n)) by lia.
  destruct (N.log2_spec n) as [Hlo Hhi]; [lia |].
  apply N2Z.inj_le in Hlo. apply N2Z.inj_lt in Hhi.
  rewrite N2Z.inj_pow in Hlo, Hhi. rewrite N2Z.inj_succ in Hhi.
  change (Z.of_N 2) with 2 in *. split; assumption.
Qed.

(** X13.  For a certificate with a public key object, the key description
    always comes out, and keySize, modulus and exponent are there together
    or not at all: they are there exactly when the key has both n and e.
    keySize is then the bit length of n.  When the key carries no algorithm
    name of its own, the algorithm says rsaEncryption exactly when those
    RSA details are there. *)
Theorem publicKeyInfo_fields (H : Host) (cert : Certificate) (pk : PublicKey)
        (w : World) :
  cert_publicKey cert = Some pk ->
  exists pki,
    publicKeyInfo H cert w = Returned pki
    /\ (keySize pki <> None <-> pk_n pk <> None /\ pk_e pk <> None)
    /\ (modulus pki = None <-> keySize pki = None)
    /\ (exponent pki = None <-> keySize pki = None)
    /\ (forall n k, pk_n pk = Some n -> keySize pki = Some k -> n <> 0%N ->
          2 ^ (k - 1) <= Z.of_N n < 2 ^ k)
    /\ (truthyString (pk_algorithm pk) = None ->
        truthyString (pk_algorithmName pk) = None ->
        (algorithm pki = "rsaEncryption" <-> keySize pki <> None)).
Proof.
  intros Hpk. unfold publicKeyInfo. rewrite Hpk.
  unfold extractPublicKeyAlgorithm.
  destruct (pk_n pk) as [n |] eqn:Hn; [destruct (pk_e pk) as [e |] eqn:He |];
    eexists; (split; [reflexivity |]); cbn [keySize modulus exponent algorithm].
  - split; [split; [intros _; split; discriminate | discriminate] |].
    split; [split; discriminate |]. split; [split; discriminate |].
    split.
    + intros n0 k Hn0 Hk Hnz. injection Hn0 as <-. injection Hk as <-.
      now apply size_bounds.
    + intros -> ->. split; [discriminate | reflexivity].
  - split; [split; [contradiction | intros [_ Hc]; contradiction] |].
    split; [now split |]. split; [now split |].
    split; [discriminate |].
    intros -> ->.
    split; [| contradiction].
    destruct (pk_curve pk); [discriminate |].
    destruct (pk_y pk && pk_p pk && pk_q pk && pk_g pk); discriminate.
  - split; [split; [contradiction | intros [Hc _]; contradiction] |].
    split; [now split |]. split; [now split |].
    split; [discriminate |].
    intros -> ->.
    split; [| contradiction].
    destruct (pk_e pk); destruct (pk_curve pk); try discriminate;
      destruct (pk_y pk && pk_p pk && pk_q pk && pk_g pk); discriminate.
Qed.

Lemma publicKeyInfo_fields_witness :
  exists pki,
    publicKeyInfo sampleHost sampleCertificate (worldAt (dateOfUTC 2025 1 1 0 0 0 0))
    = Returned pki
    /\ keySize pki = Some 32
    /\ algorithm pki = "rsaEncryption".
Proof.
  destruct (publicKeyInfo_fields sampleHost sampleCertificate sampleKey
              (worldAt (dateOfUTC 2025 1 1 0 0 0 0)) eq_refl)
    as (pki & Hret & _ & _ & _ & _ & Halg).
  exists pki. split; [exact Hret |].
  vm_compute in Hret. injection Hret as <-.
  split; [reflexivity |].
  apply (Halg eq_refl eq_refl). discriminate.
Defined.

(** ** Distinguished names *)

Lemma setAttribute_fields (dn : DistinguishedName) (a : Attribute) :
  setAttribute dn a
  = {| commonName := pickAttribute "commonName" a (commonName dn);
       organization := pickAttribute "organizationName" a (organization dn);
       organizationalUnit :=
         pickAttribute "organizationalUnitName" a (organizationalUnit dn);
       country := pickAttribute "countryName" a (country dn);
       state := pickAttribute "stateOrProvinceName" a (state dn);
       locality := pickAttribute "localityName" a (locality dn);
       email := pickAttribute "emailAddress" a (email dn) |}.
Proof.
  destruct dn as [cn o ou c st l em]. destruct a as [an av].
  unfold setAttribute, pickAttribute, attrNameIs.
  cbn [attr_name attr_value commonName organization organizationalUnit
       country state locality email].
  destruct an as [s |]; [| reflexivity].
  repeat (match goal with
          | |- context [match ?x with _ => _ end] => is_var x; destruct x
          end; try reflexivity).
Qed.

Lemma extractDN_snoc (attrs : list Attribute) (a : Attribute) :
  extractDN (attrs ++ [a]) = setAttribute (extractDN attrs) a.
Proof. unfold extractDN. now rewrite fold_left_app. Qed.

Lemma lastNamed_snoc (n : string) (attrs : list Attribute) (a : Attribute) :
  lastNamed n (attrs ++ [a]) = pickAttribute n a (lastNamed n attrs).
Proof.
  unfold lastNamed, pickAttribute. rewrite rev_unit. simpl.
  now destruct (attrNameIs n a).
Qed.

Lemma lastNamed_none (n : string) (attrs : list Attribute) :
  Forall (fun a => attrNameIs n a = false) attrs -> lastNamed n attrs = None.
Proof.
  induction attrs as [|a attrs IH] using rev_ind; intros Hall; [reflexivity |].
  apply Forall_app in Hall as [Hattrs Ha].
  inversion Ha as [|? ? Hna _]; subst.
  rewrite lastNamed_snoc. unfold pickAttribute. rewrite Hna. now apply IH.
Qed.

Lemma unrecognised_names (a : Attribute) (n : string) :
  recognised a = false -> In n recognisedNames -> attrNameIs n a = false.
Proof.
  unfold recognised. intros Hr Hn.
  destruct (attrNameIs n a) eqn:Ha; [| reflexivity].
  assert (Hex : existsb (fun m => attrNameIs m a) recognisedNames = true)
    by (apply existsb_exists; now exists n).
  congruence.
Qed.

(** X14.  Each field of an extracted distinguished name holds the text of
    the last attribute that carries the field's attribute name, the values
    of a multi-valued attribute joined with ", "; attributes of any other
    name, or of no name, leave no trace. *)
Theorem extractDN_last_wins (attrs : list Attribute) :
  extractDN attrs
  = {| commonName := lastNamed "commonName" attrs;
       organization := lastNamed "organizationName" attrs;
       organizationalUnit := lastNamed "organizationalUnitName" attrs;
       country := lastNamed "countryName" attrs;
       state := lastNamed "stateOrProvinceName" attrs;
       locality := lastNamed "localityName" attrs;
       email := lastNamed "emailAddress" attrs |}
  /\ (Forall (fun a => recognised a = false) attrs -> extractDN attrs = emptyDN)
  /\ (forall a, recognised a = false ->
        extractDN (attrs ++ [a]) = extractDN attrs).
Proof.
  assert (Hfields : forall l,
             extractDN l
             = {| commonName := lastNamed "commonName" l;
                  organization := lastNamed "organizationName" l;
                  organizationalUnit := lastNamed "organizationalUnitName" l;
                  country := lastNamed "countryName" l;
                  state := lastNamed "stateOrProvinceName" l;
                  locality := lastNamed "localityName" l;
                  email := lastNamed "emailAddress" l |}).
  { induction l as [|a l IH] using rev_ind; [reflexivity |].
    rewrite extractDN_snoc, IH, setAttribute_fields, !lastNamed_snoc.
    reflexivity. }
  split; [apply Hfields |]. split.
  - intros Hall. rewrite Hfields. unfold emptyDN.
    assert (Hnone : forall n, In n recognisedNames -> lastNamed n attrs = None).
    { intros n Hn. apply lastNamed_none. revert Hall. apply Forall_impl.
      intros a Ha. now apply unrecognised_names. }
    rewrite !Hnone; [reflexivity | | | | | | |]; simpl; tauto.
  - intros a Ha. rewrite !Hfields, !lastNamed_snoc. unfold pickAttribute.
    rewrite !(unrecognised_names a _ Ha); [reflexivity | | | | | | |];
      simpl; tauto.
Qed.

Lemma extractDN_last_wins_witness :
  commonName (extractDN (cert_subject caCertificate)) = Some "Example Root"
  /\ extractDN (cert_issuer caCertificate) = emptyDN.
Proof.
  destruct (extractDN_last_wins (cert_subject caCertificate)) as (Hs & _ & _).
  destruct (extractDN_last_wins (cert_issuer caCertificate)) as (_ & Hi & _).
  split.
  - rewrite Hs. reflexivity.
  - apply Hi. repeat constructor.
Defined.

Lemma dnPart_nil (label : string) (field : option string) :
  dnPart label field = [] <-> truthyString field = None.
Proof.
  unfold dnPart. destruct (truthyString field); split; congruence.
Qed.

Lemma dnPart_nonEmpty (label : string) (field : option string) :
  Forall (fun x => x <> "") (dnPart label field).
Proof.
  unfold dnPart. destruct (truthyString field) as [v |]; constructor;
    [| constructor].
  destruct label; discriminate.
Qed.

Lemma join_empty_nil (sep : string) (parts : list string) :
  Forall (fun x => x <> "") parts -> JS.join sep parts = "" -> parts = [].
Proof.
  intros Hparts Hempty. destruct parts as [|x rest]; [reflexivity |].
  assert (Hne : nonEmpty (JS.join sep (x :: rest)) = true)
    by (apply join_nonEmpty; [discriminate | exact Hparts]).
  rewrite Hempty in Hne. discriminate Hne.
Qed.

(** X15.  The one-line rendering of a distinguished name is empty exactly
    when none of its seven fields holds a non-empty text.  So a name made
    only of attributes the parser has no field for, such as domain
    components, is displayed as nothing. *)
Theorem formatDN_empty (dn : DistinguishedName) :
  (formatDN dn = "" <->
     truthyString (commonName dn) = None
     /\ truthyString (organization dn) = None
     /\ truthyString (organizationalUnit dn) = None
     /\ truthyString (country dn) = None
     /\ truthyString (state dn) = None
     /\ truthyString (locality dn) = None
     /\ truthyString (email dn) = None)
  /\ (forall attrs, Forall (fun a => recognised a = false) attrs ->
        formatDN (extractDN attrs) = "").
Proof.
  split.
  - unfold formatDN. split.
    + intros Hempty. apply join_empty_nil in Hempty.
      * repeat (apply app_eq_nil in Hempty as [?%dnPart_nil Hempty]).
        apply dnPart_nil in Hempty. tauto.
      * repeat (apply Forall_app; split); apply dnPart_nonEmpty.
    + intros (H1 & H2 & H3 & H4 & H5 & H6 & H7).
      unfold dnPart. now rewrite H1, H2, H3, H4, H5, H6, H7.
  - intros attrs Hall.
    assert (Hd : extractDN attrs = emptyDN).
    { clear - Hall. induction attrs as [|a l IH] using rev_ind; [reflexivity |].
      apply Forall_app in Hall as [Hl Ha]. inversion Ha as [|? ? Hra _]; subst.
      rewrite extractDN_snoc, setAttribute_fields, (IH Hl).
      unfold pickAttribute.
      rewrite !(unrecognised_names a _ Hra); [reflexivity | | | | | | |];
        simpl; tauto. }
    now rewrite Hd.
Qed.

Lemma formatDN_empty_witness :
  formatDN (extractDN (cert_issuer caCertificate)) = "".
Proof.
  apply (proj2 (formatDN_empty emptyDN)). repeat constructor.
Defined.

(** ** Loading a certificate into the page *)

Lemma INVALID_FILE_nonEmpty : INVALID_FILE <> "".
Proof. discriminate. Qed.

(** X16.  Loading a text without a URL payload: the error held by the
    page is empty afterwards exactly when the text passed the format
    validator and the parse returned, and then the page holds that result,
    the text and the name.  In every other case the certificate, raw text
    and file name held by the page keep the values they had.  A parse
    failure sets a message "Failed to parse certificate: ...". *)
Theorem handleCertificateLoad_plain (H : Host) (ApiData Json : Type)
        (actualApiResponse : ApiData -> Thrown + Json)
        (stringify : Json -> Thrown + string)
        (certText name : string) (source : option Source)
        (st : AppState) (w : World) :
  let st' := handleCertificateLoad H ApiData Json actualApiResponse stringify
               certText name source None st w in
  st_viewMode st' = st_viewMode st
  /\ (validateCertificateFormat certText = false -> st' = setError st INVALID_FILE)
  /\ (st_error st' = "" <->
      validateCertificateFormat certText = true
      /\ exists info, parseCertificate H certText w = Returned info)
  /\ (forall info, validateCertificateFormat certText = true ->
        parseCertificate H certText w = Returned info ->
        st' = {| st_certificate := Some info; st_rawText := certText;
                 st_fileName := name; st_error := "";
                 st_viewMode := st_viewMode st |})
  /\ (st_error st' <> "" ->
      st_certificate st' = st_certificate st
      /\ st_rawText st' = st_rawText st
      /\ st_fileName st' = st_fileName st)
  /\ (forall e, validateCertificateFormat certText = true ->
        parseCertificate H certText w = Threw e ->
        exists m, st_error st' = "Failed to parse certificate: " ++ m).
Proof.
  intros st'.
  assert (Hst : st' = if negb (validateCertificateFormat certText)
                      then setError st INVALID_FILE
                      else match parseCertificate H certText w with
                           | Threw err => loadFailed st err
                           | Returned parsed =>
                               setError
                                 (setFileName
                                    (setRawText (setCertificate st (Some parsed))
                                       certText) name) ""
                           end).
  { subst st'. unfold handleCertificateLoad. now destruct source as [[] |]. }
  clearbody st'. subst st'.
  destruct (validateCertificateFormat certText) eqn:Hv; cbn [negb].
  - destruct (parseCertificate_cases H certText w)
      as [(e0 & _ & Hp) | [(cert & _ & _ & Hp) | (cert & info & _ & _ & Hp)]];
      rewrite Hp; cbn [loadFailed setError setFileName setRawText setCertificate
                       st_error st_certificate st_rawText st_fileName st_viewMode].
    + split; [reflexivity |]. split; [discriminate |].
      split; [split; [discriminate | intros [_ [i Hi]]; discriminate] |].
      split; [discriminate |]. split; [now intros _ |].
      intros e _ _. eexists. reflexivity.
    + split; [reflexivity |]. split; [discriminate |].
      split; [split; [discriminate | intros [_ [i Hi]]; discriminate] |].
      split; [discriminate |]. split; [now intros _ |].
      intros e _ _. eexists. reflexivity.
    + split; [reflexivity |]. split; [discriminate |].
      split; [split; [intros _; split; [reflexivity | now exists info]
                     | reflexivity] |].
      split; [intros i _ Hi; now injection Hi as -> |].
      split; [intros Hne; now elim Hne | discriminate].
  - cbn [setError st_error st_certificate st_rawText st_fileName st_viewMode].
    split; [reflexivity |]. split; [reflexivity |].
    split; [split; [intros He; now elim INVALID_FILE_nonEmpty
                   | intros [Ht _]; discriminate] |].
    split; [discriminate |]. split; [now intros _ | discriminate].
Qed.

Lemma handleCertificateLoad_plain_witness :
  let st' := handleCertificateLoad sampleHost string string
               (fun d => inr d) (fun j => inr j)
               "MIIB" "broken.pem" (Some SourceFile) None
               (handleCertificateLoad sampleHost string string
                  (fun d => inr d) (fun j => inr j)
                  samplePem "good.pem" (Some SourceFile) None
                  initialState (worldAt (dateOfUTC 2025 1 1 0 0 0 0)))
               (worldAt (dateOfUTC 2025 1 1 0 0 0 0)) in
  st_error st' = INVALID_FILE /\ st_fileName st' = "good.pem".
Proof.
  intros st'.
  destruct (handleCertificateLoad_plain sampleHost string string
              (fun d => inr d) (fun j => inr j)
              "MIIB" "broken.pem" (Some SourceFile)
              (handleCertificateLoad sampleHost string string
                 (fun d => inr d) (fun j => inr j)
                 samplePem "good.pem" (Some SourceFile) None
                 initialState (worldAt (dateOfUTC 2025 1 1 0 0 0 0)))
              (worldAt (dateOfUTC 2025 1 1 0 0 0 0)))
    as (_ & Hinvalid & _ & _ & Hkeep & _).
  fold st' in Hinvalid, Hkeep.
  assert (Herr : st_error st' = INVALID_FILE)
    by (rewrite Hinvalid; reflexivity).
  split; [exact Herr |].
  destruct Hkeep as (_ & _ & Hname).
  - rewrite Herr. discriminate.
  - rewrite Hname. vm_compute. reflexivity.
Defined.

(** X17.  Loading with a URL payload never validates or parses the text:
    the state afterwards is the same whatever the text, the decoder and the
    clock.  When the payload is read and rendered, the page shows no
    certificate, the rendered payload as raw text in the raw view, and no
    error; when reading the payload fails, only the error changes; when
    rendering fails, the certificate has already been taken off. *)
Theorem handleCertificateLoad_url (H : Host) (ApiData Json : Type)
        (actualApiResponse : ApiData -> Thrown + Json)
        (stringify : Json -> Thrown + string)
        (certText name : string) (data : ApiData)
        (st : AppState) (w : World) :
  let st' := handleCertificateLoad H ApiData Json actualApiResponse stringify
               certText name (Some SourceUrl) (Some data) st w in
  (forall H' certText' w',
     handleCertificateLoad H' ApiData Json actualApiResponse stringify
       certText' name (Some SourceUrl) (Some data) st w' = st')
  /\ (forall response text,
        actualApiResponse data = inr response -> stringify response = inr text ->
        st' = {| st_certificate := None; st_rawText := text;
                 st_fileName := name ++ " - API Response"; st_error := "";
                 st_viewMode := Raw |})
  /\ (forall e, actualApiResponse data = inl e ->
        st' = setError st (st_error st')
        /\ st_error st' = match e with
                          | ThrownError m => m
                          | ThrownOther => "Failed to parse certificate"
                          end)
  /\ (forall response e,
        actualApiResponse data = inr response -> stringify response = inl e ->
        st_certificate st' = None /\ st_rawText st' = st_rawText st).
Proof.
  intros st'. subst st'. unfold handleCertificateLoad.
  split; [reflexivity |]. split; [| split].
  - intros response text -> ->. reflexivity.
  - intros e ->. split; reflexivity.
  - intros response e -> ->. split; reflexivity.
Qed.

Lemma handleCertificateLoad_url_witness :
  handleCertificateLoad sampleHost string string
    (fun d => inr d) (fun j => inr j)
    "ignored" "example.com.crt" (Some SourceUrl) (Some "{}")
    initialState (worldAt (dateOfUTC 2025 1 1 0 0 0 0))
  = {| st_certificate := None; st_rawText := "{}";
       st_fileName := "example.com.crt - API Response"; st_error := "";
       st_viewMode := Raw |}.
Proof.
  apply (proj1 (proj2 (handleCertificateLoad_url sampleHost string string
                         (fun d => inr d) (fun j => inr j)
                         "ignored" "example.com.crt" "{}"
                         initialState (worldAt (dateOfUTC 2025 1 1 0 0 0 0)))) "{}" "{}");
    reflexivity.
Defined.

(** ** The text form and the validator *)

Lemma string_last (x : string) :
  x <> "" -> exists t d, x = t ++ String d "".
Proof.
  induction x as [|c x IH]; [contradiction |]. intros _.
  destruct x as [|c' x'].
  - now exists "", c.
  - destruct IH as (t & d & Hx); [discriminate |].
    exists (String c t), d. simpl. now rewrite <- Hx.
Qed.

Lemma trim_fixed (x : string) :
  (forall c t, x = String c t -> JS.isWhiteSpace c = false) ->
  (forall t d, x = t ++ String d "" -> JS.isWhiteSpace d = false) ->
  JS.trim x = x.
Proof.
  intros Hfirst Hlast. destruct x as [|c x']; [reflexivity |].
  unfold JS.trim. simpl JS.trimStart. rewrite (Hfirst c x' eq_refl).
  destruct (string_last (String c x')) as (t & d & E); [discriminate |].
  rewrite E. apply trimEnd_keeps. now apply (Hlast t d).
Qed.

Lemma trim_idempotent (s : string) : JS.trim (JS.trim s) = JS.trim s.
Proof.
  destruct (trim_spec s) as (_ & Hfirst & Hlast).
  apply trim_fixed; assumption.
Qed.

(** X18.  The text form lets through every text the format validator
    accepts, and hands it on trimmed; what it hands on is trimmed, not
    empty, and comes from a text that holds the begin marker.  The form's
    own test is weaker than the validator's: it lets through a text that
    has the begin marker in the middle and no end marker. *)
Theorem handleTextSubmit_and_validator (textInput : string) :
  (validateCertificateFormat textInput = true ->
     handleTextSubmit textInput
     = OnCertificateLoad (JS.trim textInput) "pasted-certificate.pem" SourceText
     /\ validateCertificateFormat (JS.trim textInput) = true)
  /\ (forall text name src,
        handleTextSubmit textInput = OnCertificateLoad text name src ->
        text = JS.trim textInput /\ text <> "" /\ JS.trim text = text
        /\ JS.includes "-----BEGIN CERTIFICATE-----" textInput = true)
  /\ (exists t, handleTextSubmit t = OnCertificateLoad t "pasted-certificate.pem"
                                       SourceText
                /\ validateCertificateFormat t = false).
Proof.
  split; [| split].
  - intros Hv. rewrite validate_unfold in Hv.
    apply andb_true_iff in Hv as [Hb He].
    assert (Hne : nonEmpty (JS.trim textInput) = true).
    { destruct (startsWith_split _ _ Hb) as [rest ->]. reflexivity. }
    assert (Hinc : JS.includes BEGIN_CERTIFICATE textInput = true).
    { destruct (trim_spec textInput) as ((l & r & Hsplit & _) & _).
      destruct (startsWith_split _ _ Hb) as [rest Hrest].
      apply includes_iff. exists l, (rest ++ r).
      rewrite Hsplit at 1. rewrite Hrest. now rewrite app_assoc_s. }
    split.
    + unfold handleTextSubmit. now rewrite Hne, Hinc.
    + rewrite validate_unfold, trim_idempotent, Hb, He. reflexivity.
  - intros text name src. unfold handleTextSubmit.
    destruct (nonEmpty (JS.trim textInput)) eqn:Hne; [| discriminate].
    destruct (JS.includes BEGIN_CERTIFICATE textInput) eqn:Hinc;
      [| discriminate].
    cbn [negb]. intros Heq. injection Heq as <- _ _.
    split; [reflexivity |]. split.
    + intros Hempty. rewrite Hempty in Hne. discriminate Hne.
    + split; [apply trim_idempotent | exact Hinc].
  - exists "x-----BEGIN CERTIFICATE-----y". split; reflexivity.
Qed.

Lemma handleTextSubmit_and_validator_witness :
  handleTextSubmit samplePem
  = OnCertificateLoad (JS.trim samplePem) "pasted-certificate.pem" SourceText.
Proof.
  apply (proj1 (handleTextSubmit_and_validator samplePem)). reflexivity.
Defined.

(** ** The generic extension list *)

Lemma extensionInfo_name (ext : Extension) : name (extensionInfo ext) <> "".
Proof.
  unfold extensionInfo. cbn [name]. unfold truthyString.
  destruct (ext_name ext) as [n |]; [| discriminate].
  destruct (String.eqb_spec n ""); [discriminate | assumption].
Qed.

Lemma extensionInfo_string (ext : Extension) (s : string) :
  ext_value ext = ExtString s -> value (extensionInfo ext) = s.
Proof.
  intros Hv. unfold extensionInfo. cbn [value]. rewrite Hv.
  unfold truthyValue, nonEmpty.
  destruct (String.eqb_spec s ""); [now subst | reflexivity].
Qed.

(** X19.  The extensions of a result are the extensions of the
    certificate, one for one and in the same order, those with a decoder of
    their own included.  Each keeps its critical flag, has a name that is
    not empty ("Unknown" stands in for a missing one), and a string value
    is passed on as it is. *)
Theorem extensions_of_parse (H : Host) (certText : string) (w : World)
        (info : CertificateInfo) :
  parseCertificate H certText w = Returned info ->
  exists cert,
    certificateFromPem H (JS.trim certText) = inr cert
    /\ List.length (extensions info) = List.length (cert_extensions cert)
    /\ Forall (fun x => name x <> "") (extensions info)
    /\ (forall i ext, nth_error (cert_extensions cert) i = Some ext ->
          exists x,
            nth_error (extensions info) i = Some x
            /\ critical x = ext_critical ext
            /\ (ext_name ext = None -> name x = "Unknown")
            /\ (forall n, ext_name ext = Some n -> n <> "" -> name x = n)
            /\ (forall s, ext_value ext = ExtString s -> value x = s)).
Proof.
  intros Hret.
  apply parseCertificate_returned in Hret as (cert & pki & Hd & _ & ->).
  rewrite cleanCertText_is_trim in Hd.
  exists cert. split; [exact Hd |]. cbn [extensions].
  split; [apply length_map |]. split.
  - apply Forall_map. apply Forall_forall. intros ext _.
    apply extensionInfo_name.
  - intros i ext Hi. exists (extensionInfo ext). split.
    + rewrite nth_error_map, Hi. reflexivity.
    + split; [unfold extensionInfo; cbn [critical]; apply orb_false_r |].
      split; [intros Hn; unfold extensionInfo; cbn [name]; now rewrite Hn |].
      split; [| apply extensionInfo_string].
      intros n Hn Hne. unfold extensionInfo. cbn [name]. rewrite Hn.
      unfold truthyString. now destruct (String.eqb_spec n "").
Qed.

Lemma extensions_of_parse_witness :
  exists info,
    parseCertificate sampleHost samplePem (worldAt (dateOfUTC 2025 1 1 0 0 0 0))
    = Returned info
    /\ List.length (extensions info) = 2%nat.
Proof.
  destruct (parseCertificate sampleHost samplePem
              (worldAt (dateOfUTC 2025 1 1 0 0 0 0))) as [info | e] eqn:Hp;
    [| vm_compute in Hp; discriminate Hp].
  exists info. split; [reflexivity |].
  destruct (extensions_of_parse _ _ _ _ Hp) as (cert & Hd & Hlen & _).
  rewrite Hlen. vm_compute in Hd. injection Hd as <-. reflexivity.
Defined.
